(** * RAG comparison demo: query submission, dual dispatch and proxy route

  A shallow embedding of the stateful parts of the client
  ([components/chat-interface.tsx], [components/response-comparison.tsx])
  and of the vector-only proxy route
  ([app/api/query-vector-only/route.ts]).

  React state is a record; every [setX] call of the source is a record
  update, applied in the order the source applies it.  Asynchronous
  fetches are calls in flight, settled later by an event. *)

From Stdlib Require Import ZArith NArith List Bool String Ascii Lia.
From Stdlib Require Import DecimalString.
Import ListNotations.

Local Open Scope Z_scope.

(* ================================================================== *)
(** ** JavaScript values used by the components *)

Module JS.

(** A JavaScript string is a sequence of UTF-16 code units. *)
Definition jsstring := list N.

(** String literals of the source, written in ASCII. *)
Definition lit (s : string) : jsstring :=
  map N_of_ascii (list_ascii_of_string s).

(** ECMAScript [WhiteSpace] and [LineTerminator] code points, the ones
    [String.prototype.trim] strips. *)
Definition isWhiteSpace (c : N) : bool :=
  ((9 <=? c) && (c <=? 13) || (c =? 32) || (c =? 160) || (c =? 5760)
   || (8192 <=? c) && (c <=? 8202)
   || (c =? 8232) || (c =? 8233) || (c =? 8239) || (c =? 8287)
   || (c =? 12288) || (c =? 65279))%N.

Fixpoint trimStart (s : jsstring) : jsstring :=
  match s with
  | [] => []
  | c :: rest => if isWhiteSpace c then trimStart rest else s
  end.

Definition trimEnd (s : jsstring) : jsstring := rev (trimStart (rev s)).

(** [String.prototype.trim] *)
Definition trim (s : jsstring) : jsstring := trimEnd (trimStart s).

(** Truthiness of a string: the empty string is falsy. *)
Definition truthy_string (s : jsstring) : bool :=
  match s with [] => false | _ :: _ => true end.

(** Truthiness of [string | null]. *)
Definition truthy_ostring (o : option jsstring) : bool :=
  match o with None => false | Some s => truthy_string s end.

(** [Number.prototype.toString] on an integer-valued number. *)
Definition toString (z : Z) : jsstring :=
  lit (NilZero.string_of_int (Z.to_int z)).

(** Truthiness of [number | null] for integer-valued numbers: [null] and
    [0] are falsy. *)
Definition truthy_onumber (o : option Z) : bool :=
  match o with None => false | Some z => negb (z =? 0) end.

(** [arr[i]]: [undefined] (here [None]) outside [0 .. length-1]. *)
Definition index {A} (arr : list A) (i : Z) : option A :=
  if i <? 0 then None else nth_error arr (Z.to_nat i).

(** [arr.slice(0, n)] for [n >= 0]. *)
Definition slice0 {A} (n : nat) (arr : list A) : list A := firstn n arr.

(** [arr.length] *)
Definition length {A} (arr : list A) : Z := Z.of_nat (List.length arr).

(** [a === b] on strings. *)
Fixpoint eqb (a b : jsstring) : bool :=
  match a, b with
  | [], [] => true
  | x :: a', y :: b' => (x =? y)%N && eqb a' b'
  | _, _ => false
  end.

(** A value that [JSON.parse] or [response.json()] yields. *)
#[local] Unset Elimination Schemes.
Inductive Json :=
| JNull
| JBool (b : bool)
| JNumber (n : Z)
| JString (s : jsstring)
| JArray (items : list Json)
| JObject (members : list (jsstring * Json)).

#[local] Set Elimination Schemes.

Definition truthy (v : Json) : bool :=
  match v with
  | JNull => false
  | JBool b => b
  | JNumber n => negb (n =? 0)
  | JString s => truthy_string s
  | JArray _ | JObject _ => true
  end.

End JS.

(* ================================================================== *)
(** ** components/chat-interface.tsx *)

Module Chat.
Import JS.

Record QueryHistoryItem := {
  id : jsstring;
  text : jsstring;
  timestamp : Z
}.

(** The four [useState] cells of [ChatInterface]. *)
Record State := {
  query : jsstring;
  isLoading : bool;
  queryHistory : list QueryHistoryItem;
  historyIndex : Z
}.

Definition initial : State :=
  {| query := []; isLoading := false; queryHistory := []; historyIndex := -1 |}.

Definition setQuery (v : jsstring) (st : State) : State :=
  {| query := v; isLoading := isLoading st;
     queryHistory := queryHistory st; historyIndex := historyIndex st |}.

Definition setIsLoading (v : bool) (st : State) : State :=
  {| query := query st; isLoading := v;
     queryHistory := queryHistory st; historyIndex := historyIndex st |}.

(** [setQueryHistory] is called with an updater function. *)
Definition setQueryHistory
    (f : list QueryHistoryItem -> list QueryHistoryItem) (st : State) : State :=
  {| query := query st; isLoading := isLoading st;
     queryHistory := f (queryHistory st); historyIndex := historyIndex st |}.

Definition setHistoryIndex (v : Z) (st : State) : State :=
  {| query := query st; isLoading := isLoading st;
     queryHistory := queryHistory st; historyIndex := v |}.

(** What a handler does to the outside world. *)
Inductive Effect :=
| DispatchNewQuery (detail_query : jsstring)   (* window.dispatchEvent *)
| Toast (title description variant : jsstring)
| UnhandledTypeError.       (* the promise of an async handler rejects *)

(** The members of the object [useToast()] returns (hooks/use-toast.tsx):
    [{ toasts, add, dismiss, clear }]. *)
Definition useToast : list jsstring :=
  [lit "toasts"; lit "add"; lit "dismiss"; lit "clear"].

(** [const { toast } = useToast() as any]: whether the destructured
    member is there.  It is not, so [toast] is [undefined]. *)
Definition toast_defined : bool := existsb (eqb (lit "toast")) useToast.

(** [handleSubmit].  [now] is the value of [Date.now()]; [dispatchThrows]
    says whether [window.dispatchEvent] raises, which sends control to the
    [catch] arm.  There the call of [toast] raises a [TypeError], [toast]
    being [undefined]; the [finally] arm still runs, and the promise the
    handler returned rejects.  No caller awaits it. *)
Definition handleSubmit (now : Z) (dispatchThrows : bool) (st : State)
  : State * list Effect :=
  if negb (truthy_string (trim (query st))) then (st, [])
  else
    let st1 := setIsLoading true st in
    let newQueryItem :=
      {| id := toString now; text := trim (query st); timestamp := now |} in
    let st2 := setQueryHistory (fun prev => newQueryItem :: slice0 19 prev) st1 in
    let st3 := setHistoryIndex (-1) st2 in
    let event := DispatchNewQuery (trim (query st)) in
    if dispatchThrows then
      (setIsLoading false st3,
       [event;
        if toast_defined
        then Toast (lit "Error") (lit "Failed to send query. Please try again.")
                   (lit "destructive")
        else UnhandledTypeError])
    else
      let st4 := setQuery [] st3 in
      (setIsLoading false st4, [event]).

Inductive Direction := up | down.

(** [navigateHistory].  [None] is the [TypeError] raised by reading
    [.text] of [undefined], that is, an out-of-range read of
    [queryHistory]. *)
Definition navigateHistory (direction : Direction) (st : State) : option State :=
  if length (queryHistory st) =? 0 then Some st
  else
    match direction with
    | up =>
        let newIndex :=
          if historyIndex st <? length (queryHistory st) - 1
          then historyIndex st + 1 else historyIndex st in
        let st1 := setHistoryIndex newIndex st in
        if (0 <=? newIndex) && (newIndex <? length (queryHistory st)) then
          match index (queryHistory st) newIndex with
          | Some item => Some (setQuery (text item) st1)
          | None => None
          end
        else Some st1
    | down =>
        let newIndex :=
          if 0 <? historyIndex st then historyIndex st - 1 else -1 in
        let st1 := setHistoryIndex newIndex st in
        if 0 <=? newIndex then
          match index (queryHistory st) newIndex with
          | Some item => Some (setQuery (text item) st1)
          | None => None
          end
        else Some (setQuery [] st1)
    end.

(** A sequence of navigation steps, each on the state the previous one
    left. *)
Fixpoint navigate (steps : list Direction) (st : State) : option State :=
  match steps with
  | [] => Some st
  | d :: rest =>
      match navigateHistory d st with
      | Some st' => navigate rest st'
      | None => None
      end
  end.

(** The cursor and the input field after each step of a navigation
    sequence; [None] where a step raised. *)
Fixpoint trace (steps : list Direction) (st : State)
  : list (option (Z * jsstring)) :=
  match steps with
  | [] => []
  | d :: rest =>
      match navigateHistory d st with
      | Some st' => Some (historyIndex st', query st') :: trace rest st'
      | None => [None]
      end
  end.

(** The queries carried by the [newQuery] events among some effects. *)
Fixpoint signals (effects : list Effect) : list jsstring :=
  match effects with
  | [] => []
  | DispatchNewQuery q :: rest => q :: signals rest
  | Toast _ _ _ :: rest => signals rest
  | UnhandledTypeError :: rest => signals rest
  end.

(** A history with the given texts, most recent first. *)
Definition historyOf (texts : list jsstring) : list QueryHistoryItem :=
  map (fun t => {| id := t; text := t; timestamp := 0 |}) texts.

(** The state right after mount, with some text typed in. *)
Definition typed (input : jsstring) : State := setQuery input initial.

(** An empty input field over a given history, nothing selected. *)
Definition browsing (history : list QueryHistoryItem) : State :=
  {| query := []; isLoading := false;
     queryHistory := history; historyIndex := -1 |}.

(** The cursor is "none" ([-1]) or a position of the history. *)
Definition cursor_in_range (st : State) : Prop :=
  -1 <= historyIndex st <= length (queryHistory st) - 1.

End Chat.

(* ================================================================== *)
(** ** components/response-comparison.tsx *)

Module Dispatcher.
Import JS.

(** The shapes the source declares for the two bodies.  They are types of
    the compiler only: what arrives is whatever JSON the endpoint sends, so
    the cells below hold a [Json]; [toJson] gives the value a body of the
    declared shape is. *)
Module VectorResult.
Record t := { score : jsstring; text : jsstring }.
Definition toJson (r : t) : Json :=
  JObject [(lit "score", JString (score r)); (lit "text", JString (text r))].
End VectorResult.

(** [Record<string, any>]: the schema is left open by the source. *)
Definition CypherResult := list (jsstring * Json).

Module VectorOnlyResponse.
Record t := {
  query : jsstring;
  summary : jsstring;
  vector_results : list VectorResult.t
}.
Definition toJson (r : t) : Json :=
  JObject [(lit "query", JString (query r));
           (lit "summary", JString (summary r));
           (lit "vector_results",
            JArray (map VectorResult.toJson (vector_results r)))].
End VectorOnlyResponse.

Module KGResponse.
Record t := {
  query : jsstring;
  summary : jsstring;
  cypher_query : jsstring;
  cypher_results_count : Z;
  cypher_results : list CypherResult;
  vector_results : list VectorResult.t
}.
Definition toJson (r : t) : Json :=
  JObject [(lit "query", JString (query r));
           (lit "summary", JString (summary r));
           (lit "cypher_query", JString (cypher_query r));
           (lit "cypher_results_count", JNumber (cypher_results_count r));
           (lit "cypher_results", JArray (map JObject (cypher_results r)));
           (lit "vector_results",
            JArray (map VectorResult.toJson (vector_results r)))].
End KGResponse.

(** The session cells of [ResponseComparison].  A response cell holds
    [null] ([JNull]) or what [response.json()] gave, stored unchecked.  The
    two tab selectors and the viewport flag only pick what is shown of a
    response and are left out. *)
Record State := {
  query : jsstring;
  isLoading : bool;
  vectorResponse : Json;
  kgResponse : Json;
  vectorError : option jsstring;
  kgError : option jsstring;
  vectorTime : option Z;
  kgTime : option Z
}.

Definition initial : State :=
  {| query := []; isLoading := false;
     vectorResponse := JNull; kgResponse := JNull;
     vectorError := None; kgError := None;
     vectorTime := None; kgTime := None |}.

Definition setQuery v s :=
  {| query := v; isLoading := isLoading s;
     vectorResponse := vectorResponse s; kgResponse := kgResponse s;
     vectorError := vectorError s; kgError := kgError s;
     vectorTime := vectorTime s; kgTime := kgTime s |}.

Definition setIsLoading v s :=
  {| query := query s; isLoading := v;
     vectorResponse := vectorResponse s; kgResponse := kgResponse s;
     vectorError := vectorError s; kgError := kgError s;
     vectorTime := vectorTime s; kgTime := kgTime s |}.

Definition setVectorResponse v s :=
  {| query := query s; isLoading := isLoading s;
     vectorResponse := v; kgResponse := kgResponse s;
     vectorError := vectorError s; kgError := kgError s;
     vectorTime := vectorTime s; kgTime := kgTime s |}.

Definition setKGResponse v s :=
  {| query := query s; isLoading := isLoading s;
     vectorResponse := vectorResponse s; kgResponse := v;
     vectorError := vectorError s; kgError := kgError s;
     vectorTime := vectorTime s; kgTime := kgTime s |}.

Definition setVectorError v s :=
  {| query := query s; isLoading := isLoading s;
     vectorResponse := vectorResponse s; kgResponse := kgResponse s;
     vectorError := v; kgError := kgError s;
     vectorTime := vectorTime s; kgTime := kgTime s |}.

Definition setKGError v s :=
  {| query := query s; isLoading := isLoading s;
     vectorResponse := vectorResponse s; kgResponse := kgResponse s;
     vectorError := vectorError s; kgError := v;
     vectorTime := vectorTime s; kgTime := kgTime s |}.

Definition setVectorTime v s :=
  {| query := query s; isLoading := isLoading s;
     vectorResponse := vectorResponse s; kgResponse := kgResponse s;
     vectorError := vectorError s; kgError := kgError s;
     vectorTime := v; kgTime := kgTime s |}.

Definition setKGTime v s :=
  {| query := query s; isLoading := isLoading s;
     vectorResponse := vectorResponse s; kgResponse := kgResponse s;
     vectorError := vectorError s; kgError := kgError s;
     vectorTime := vectorTime s; kgTime := v |}.

(** *** The body of [handleQuery] up to the two calls it starts *)
Definition handleQuery (newQuery : jsstring) (s : State) : State :=
  let s := setQuery newQuery s in
  let s := setIsLoading true s in
  let s := setVectorResponse JNull s in
  let s := setKGResponse JNull s in
  let s := setVectorError None s in
  let s := setKGError None s in
  s.

(** *** How a [fetch] ends *)

(** A thrown value: an [Error] with its message, or anything else. *)
Inductive Thrown := ErrorObject (message : jsstring) | OtherValue.

(** The [Response] of a fulfilled [fetch]: its status and what
    [response.json()] settles to, a thrown value or any JSON value, [null]
    included. *)
Record Response := { status : Z; json : Thrown + Json }.

(** [response.ok]: the status is in the range 200-299. *)
Definition ok (response : Response) : bool :=
  (200 <=? status response) && (status response <=? 299).

(** How the awaited [fetch] ends.  [Rejected] also stands for a value
    thrown before the [await], while the request is built. *)
Inductive Settlement :=
| Rejected (e : Thrown)
| Fulfilled (response : Response).

(** The [try] block of both fetchers after the [await]: the value of
    [data], or what was thrown on the way. *)
Definition tryBlock (settled : Settlement) : Thrown + Json :=
  match settled with
  | Rejected e => inl e
  | Fulfilled response =>
      if negb (ok response)
      then inl (ErrorObject (lit "API error: " ++ toString (status response)))
      else json response
  end.

(** [error instanceof Error ? error.message : "Unknown error"] *)
Definition errorMessage (error : Thrown) : jsstring :=
  match error with
  | ErrorObject message => message
  | OtherValue => lit "Unknown error"
  end.

(** [fetchVectorResponse] from the point its [fetch] settles.  [elapsed]
    is the value of [Math.round(performance.now() - startTime)]. *)
Definition fetchVectorResponse (settled : Settlement)
    (elapsed : Z) (s : State) : State :=
  match tryBlock settled with
  | inr data =>
      let s := setVectorResponse data s in
      setVectorTime (Some elapsed) s
  | inl error => setVectorError (Some (errorMessage error)) s
  end.

(** [fetchKGResponse] from the point its [fetch] settles; the [finally]
    arm runs last on both paths. *)
Definition fetchKGResponse (settled : Settlement)
    (elapsed : Z) (s : State) : State :=
  let s :=
    match tryBlock settled with
    | inr data =>
        let s := setKGResponse data s in
        setKGTime (Some elapsed) s
    | inl error => setKGError (Some (errorMessage error)) s
    end in
  setIsLoading false s.

(** *** The component with its calls in flight *)

Inductive Side := VectorSide | KGSide.

(** A started call: which fetcher, and the query it was given. *)
Record Call := { side : Side; arg : jsstring }.

Definition Call_eqb (a b : Call) : bool :=
  match side a, side b with
  | VectorSide, VectorSide | KGSide, KGSide => eqb (arg a) (arg b)
  | _, _ => false
  end.

Record System := { ui : State; inflight : list Call }.

Definition start : System := {| ui := initial; inflight := [] |}.

(** Takes the first call equal to [c] out of the calls in flight. *)
Fixpoint settle (c : Call) (calls : list Call) : option (list Call) :=
  match calls with
  | [] => None
  | c' :: rest =>
      if Call_eqb c c' then Some rest
      else match settle c rest with
           | Some rest' => Some (c' :: rest')
           | None => None
           end
  end.

Inductive Event :=
| NewQuery (q : jsstring)
| VectorSettled (q : jsstring) (settled : Settlement) (elapsed : Z)
| KGSettled (q : jsstring) (settled : Settlement) (elapsed : Z).

(** One turn of the event loop.  A [newQuery] event runs [handleQuery],
    which starts both calls; a settlement resumes the fetcher that awaits
    it, and is possible only for a call in flight. *)
Definition step (e : Event) (sys : System) : option System :=
  match e with
  | NewQuery q =>
      Some {| ui := handleQuery q (ui sys);
              inflight := inflight sys
                          ++ [ {| side := VectorSide; arg := q |};
                               {| side := KGSide; arg := q |} ] |}
  | VectorSettled q settled elapsed =>
      match settle {| side := VectorSide; arg := q |} (inflight sys) with
      | Some rest =>
          Some {| ui := fetchVectorResponse settled elapsed (ui sys);
                  inflight := rest |}
      | None => None
      end
  | KGSettled q settled elapsed =>
      match settle {| side := KGSide; arg := q |} (inflight sys) with
      | Some rest =>
          Some {| ui := fetchKGResponse settled elapsed (ui sys);
                  inflight := rest |}
      | None => None
      end
  end.

Fixpoint run (events : list Event) (sys : System) : option System :=
  match events with
  | [] => Some sys
  | e :: rest =>
      match step e sys with
      | Some sys' => run rest sys'
      | None => None
      end
  end.

(** How many calls of one side are in flight. *)
Definition Side_eqb (a b : Side) : bool :=
  match a, b with
  | VectorSide, VectorSide | KGSide, KGSide => true
  | _, _ => false
  end.

Fixpoint outstanding (sd : Side) (calls : list Call) : nat :=
  match calls with
  | [] => O
  | c :: rest =>
      if Side_eqb sd (side c) then S (outstanding sd rest)
      else outstanding sd rest
  end.

Definition isNewQuery (e : Event) : bool :=
  match e with NewQuery _ => true | _ => false end.

(** The query whose call an event settles. *)
Definition settles (e : Event) : option jsstring :=
  match e with
  | NewQuery _ => None
  | VectorSettled q _ _ | KGSettled q _ _ => Some q
  end.

(** *** A side's outcome, read off the session cells

    [handleQuery] clears a side to "no response, no error"; a settlement
    stores either a body with its time or an error message.  A side with
    [null] in both cells is pending. *)
Inductive RetrievalOutcome (T : Type) :=
| Pending
| Success (payload : T) (elapsedMs : option Z)
| Failure (message : jsstring).
Arguments Pending {T}.
Arguments Success {T} _ _.
Arguments Failure {T} _.

Definition vectorOutcome (s : State) : RetrievalOutcome Json :=
  match vectorError s, vectorResponse s with
  | Some message, _ => Failure message
  | None, JNull => Pending
  | None, data => Success data (vectorTime s)
  end.

Definition kgOutcome (s : State) : RetrievalOutcome Json :=
  match kgError s, kgResponse s with
  | Some message, _ => Failure message
  | None, JNull => Pending
  | None, data => Success data (kgTime s)
  end.

Definition isPending {T} (o : RetrievalOutcome T) : bool :=
  match o with Pending => true | _ => false end.

(** *** Rendering *)

(** [formatTime] *)
Definition formatTime (ms : option Z) : jsstring :=
  match ms with
  | Some n => if truthy_onumber ms then toString n ++ lit "ms" else lit "N/A"
  | None => lit "N/A"
  end.

(** What [{time && <Badge>...</Badge>}] puts in the card title: nothing
    for [null], the bare number for [0] (React renders a number operand
    as text), the badge otherwise. *)
Inductive BadgeSlot :=
| NoBadge
| BareNumber (n : Z)
| Badge (label : jsstring).

Definition badgeSlot (time : option Z) : BadgeSlot :=
  match time with
  | None => NoBadge
  | Some n => if truthy_onumber time then Badge (formatTime time)
              else BareNumber n
  end.

(** The body of one card. *)
Inductive Panel (T : Type) :=
| Skeleton
| ErrorAlert (description : jsstring)
| TabsView (data : T)
| Waiting.
Arguments Skeleton {T}.
Arguments ErrorAlert {T} _.
Arguments TabsView {T} _.
Arguments Waiting {T}.

(** [isLoading && !response ? skeleton : error ? alert : response ? tabs
    : waiting] *)
Definition panel (loading : bool) (response : Json)
    (error : option jsstring) : Panel Json :=
  if loading && negb (truthy response) then Skeleton
  else
    let otherwise : Panel Json :=
      if truthy response then TabsView response else Waiting in
    match error with
    | Some description =>
        if truthy_string description then ErrorAlert description else otherwise
    | None => otherwise
    end.

Inductive View :=
| Placeholder
| Comparison (heading : jsstring) (spinner : bool)
             (vectorBadge : BadgeSlot) (vectorPanel : Panel Json)
             (kgBadge : BadgeSlot) (kgPanel : Panel Json).

Definition render (s : State) : View :=
  if negb (truthy_string (query s)) then Placeholder
  else Comparison (query s) (isLoading s)
         (badgeSlot (vectorTime s))
         (panel (isLoading s) (vectorResponse s) (vectorError s))
         (badgeSlot (kgTime s))
         (panel (isLoading s) (kgResponse s) (kgError s)).

(** The component after some events, from mount. *)
Definition after (events : list Event) : System :=
  match run events start with
  | Some sys => sys
  | None => start
  end.

(** Each side has no call in flight, or has one and is pending. *)
Definition single_flight (sys : System) : Prop :=
  (outstanding VectorSide (inflight sys) = 0%nat
   \/ (outstanding VectorSide (inflight sys) = 1%nat
       /\ isPending (vectorOutcome (ui sys)) = true))
  /\ (outstanding KGSide (inflight sys) = 0%nat
      \/ (outstanding KGSide (inflight sys) = 1%nat
          /\ isPending (kgOutcome (ui sys)) = true)).

(** *** Sample traffic *)

Definition sampleVector (q : jsstring) : Json :=
  VectorOnlyResponse.toJson
  {| VectorOnlyResponse.query := q;
     VectorOnlyResponse.summary := lit "...";
     VectorOnlyResponse.vector_results :=
       [ {| VectorResult.score := lit "0.91"; VectorResult.text := lit "..." |} ] |}.

Definition sampleKG (q : jsstring) : Json :=
  KGResponse.toJson
  {| KGResponse.query := q;
     KGResponse.summary := lit "...";
     KGResponse.cypher_query := lit "MATCH (d:Disease)...";
     KGResponse.cypher_results_count := 2;
     KGResponse.cypher_results := [[]; []];
     KGResponse.vector_results := [] |}.

(** A 200 response whose body parses to [data]. *)
Definition answered (data : Json) : Settlement :=
  Fulfilled {| status := 200; json := inr data |}.

(** A response with an error status. *)
Definition refused (code : Z) : Settlement :=
  Fulfilled {| status := code; json := inl (ErrorObject (lit "Unexpected token")) |}.

End Dispatcher.

(* ================================================================== *)
(** ** app/api/query-vector-only/route.ts *)

Module Route.
Import JS.

Fixpoint assoc {A} (name : jsstring) (entries : list (jsstring * A)) : option A :=
  match entries with
  | [] => None
  | (k, v) :: rest => if eqb k name then Some v else assoc name rest
  end.

(** [request.nextUrl.searchParams] as its list of name/value pairs. *)
Record NextRequest := { searchParams : list (jsstring * jsstring) }.

(** [URLSearchParams.get]: the first value of that name, or [null]. *)
Definition get (name : jsstring) (params : list (jsstring * jsstring))
  : option jsstring := assoc name params.

Record NextResponse := {
  status : Z;
  headers : list (jsstring * jsstring);
  body : Json
}.

(** [NextResponse.json(body, init)] *)
Definition json (data : Json) (init_status : option Z)
    (init_headers : list (jsstring * jsstring)) : NextResponse :=
  {| status := match init_status with Some code => code | None => 200 end;
     headers := init_headers;
     body := data |}.

(** A thrown value, with its [message] for an [Error] and its [String()]
    form otherwise. *)
Inductive Thrown := ErrorObject (message : jsstring) | OtherValue (asString : jsstring).

(** The request handed to [fetch]. *)
Record BackendRequest := {
  url : jsstring;
  method : jsstring;
  requestHeaders : list (jsstring * jsstring)
}.

Record BackendResponse := {
  backendStatus : Z;
  text : Thrown + jsstring        (* what [response.text()] settles to *)
}.

Definition ok (response : BackendResponse) : bool :=
  (200 <=? backendStatus response) && (backendStatus response <=? 299).

Inductive Settlement := Rejected (e : Thrown) | Fulfilled (response : BackendResponse).

(** The argument of the second [console.log] of the inner [try]:
    [data.summary ? data.summary.substring(0, 100) + "..." : "No summary"].
    [false] when evaluating it raises a [TypeError]: [data] is [null], or
    the summary is truthy and has no [substring]. *)
Definition summaryLogs (data : Json) : bool :=
  match data with
  | JNull => false
  | JObject members =>
      match assoc (lit "summary") members with
      | Some v =>
          if truthy v then match v with JString _ => true | _ => false end
          else true
      | None => true
      end
  | _ => true
  end.

Section Handler.
(** The environment of the handler. *)
Variable API_BASE_URL : option jsstring.               (* process.env *)
Variable encodeURIComponent : jsstring -> Thrown + jsstring.
Variable JSON_parse : jsstring -> Thrown + Json.
Variable backend : BackendRequest -> Settlement.       (* fetch *)

Definition required : NextResponse :=
  json (JObject [(lit "error", JString (lit "Query parameter is required"))])
       (Some 400) [].

Definition parseFailure : NextResponse :=
  json (JObject [(lit "error",
                  JString (lit "Failed to parse JSON response from backend"))])
       (Some 500) [].

Definition fetchFailure (error : Thrown) : NextResponse :=
  json (JObject
          [(lit "error", JString (lit "Failed to fetch from vector-only endpoint"));
           (lit "details",
            JString match error with
                    | ErrorObject message => message
                    | OtherValue asString => asString
                    end)])
       (Some 500) [].

(** [GET]: the response, and the backend calls made on the way. *)
Definition GET (request : NextRequest) : NextResponse * list BackendRequest :=
  let query := get (lit "query") (searchParams request) in
  if negb (truthy_ostring query) then (required, [])
  else
    let query := match query with Some q => q | None => [] end in
    let apiUrl :=
      if truthy_ostring API_BASE_URL
      then match API_BASE_URL with Some u => u | None => [] end
      else lit "http://localhost:8000" in
    match encodeURIComponent query with
    | inl error => (fetchFailure error, [])
    | inr encoded =>
        let call :=
          {| url := apiUrl ++ lit "/query-with-vector-only?query=" ++ encoded;
             method := lit "GET";
             requestHeaders :=
               [(lit "Content-Type", lit "application/json");
                (lit "Cache-Control", lit "no-cache")] |} in
        let outcome : Thrown + NextResponse :=
          match backend call with
          | Rejected error => inl error
          | Fulfilled response =>
              if negb (ok response) then
                inl (ErrorObject (lit "Backend API responded with status: "
                                  ++ toString (backendStatus response)))
              else
                match text response with
                | inl error => inl error
                | inr text =>
                    match JSON_parse text with
                    | inl parseError => inr parseFailure
                    | inr data =>
                        if summaryLogs data
                        then inr (json data None
                                    [(lit "Cache-Control", lit "no-store, max-age=0")])
                        else inr parseFailure
                    end
                end
          end in
        (match outcome with
         | inr response => response
         | inl error => fetchFailure error
         end, [call])
    end.
End Handler.

End Route.

(* ================================================================== *)
(** ** components/chat-interface.tsx: the keyboard, the buttons, the chips *)

Module ChatUI.
Import JS Chat.

(** [e.key], as far as [handleKeyDown] tells keys apart. *)
Inductive Key := Enter | ArrowUp | ArrowDown | OtherKey.

(** A handler that dispatches nothing. *)
Definition quiet (r : option State) : option (State * list Effect) :=
  match r with
  | Some st => Some (st, [])
  | None => None
  end.

(** [handleKeyDown].  The key is one of the three tested or another one, so
    at most one of the three arms runs. *)
Definition handleKeyDown (key : Key) (shiftKey : bool)
    (now : Z) (dispatchThrows : bool) (st : State)
  : option (State * list Effect) :=
  match key with
  | Enter =>
      if negb shiftKey then Some (handleSubmit now dispatchThrows st)
      else Some (st, [])
  | ArrowUp =>
      if negb shiftKey && eqb (query st) [] then quiet (navigateHistory up st)
      else Some (st, [])
  | ArrowDown =>
      if negb shiftKey then quiet (navigateHistory down st)
      else Some (st, [])
  | OtherKey => Some (st, [])
  end.

(** What the render makes of the state: the [disabled] attributes of the
    three buttons and the history chips, [queryHistory.slice(0, 5)]. *)
Definition sendDisabled (st : State) : bool :=
  isLoading st || negb (truthy_string (trim (query st))).

Definition upDisabled (st : State) : bool :=
  length (queryHistory st) =? 0.

Definition downDisabled (st : State) : bool :=
  historyIndex st <=? 0.

Definition chips (st : State) : list QueryHistoryItem :=
  slice0 5 (queryHistory st).

(** What the user can do to the component. *)
Inductive UIEvent :=
| Change (value : jsstring)                      (* textarea onChange *)
| KeyDown (key : Key) (shiftKey : bool) (now : Z) (dispatchThrows : bool)
| ClickSend (now : Z) (dispatchThrows : bool)    (* form onSubmit *)
| ClickUp
| ClickDown
| ClickChip (i : nat).

(** The handler an event runs.  A click on a disabled button, or on a chip
    that is not shown, runs none. *)
Definition react (e : UIEvent) (st : State) : option (State * list Effect) :=
  match e with
  | Change value => Some (setQuery value st, [])
  | KeyDown key shiftKey now dispatchThrows =>
      handleKeyDown key shiftKey now dispatchThrows st
  | ClickSend now dispatchThrows =>
      if sendDisabled st then Some (st, [])
      else Some (handleSubmit now dispatchThrows st)
  | ClickUp =>
      if upDisabled st then Some (st, []) else quiet (navigateHistory up st)
  | ClickDown =>
      if downDisabled st then Some (st, []) else quiet (navigateHistory down st)
  | ClickChip i =>
      match nth_error (chips st) i with
      | Some item => Some (setQuery (text item) st, [])
      | None => Some (st, [])
      end
  end.

(** A session of events; the effects are collected in order. *)
Fixpoint run (events : list UIEvent) (st : State)
  : option (State * list Effect) :=
  match events with
  | [] => Some (st, [])
  | e :: rest =>
      match react e st with
      | Some (st1, effects1) =>
          match run rest st1 with
          | Some (st2, effects2) => Some (st2, effects1 ++ effects2)
          | None => None
          end
      | None => None
      end
  end.

(** Whether the event is a submission on which [window.dispatchEvent]
    raises. *)
Definition dispatchRaises (e : UIEvent) : bool :=
  match e with
  | KeyDown _ _ _ dispatchThrows | ClickSend _ dispatchThrows => dispatchThrows
  | _ => false
  end.

(** Typing each text in turn and pressing Enter on it. *)
Fixpoint submitAll (texts : list jsstring) (now : Z) (st : State) : State :=
  match texts with
  | [] => st
  | t :: rest =>
      submitAll rest (now + 1) (fst (handleSubmit now false (setQuery t st)))
  end.

(** A history item holds a trimmed text that is not empty. *)
Definition recorded (item : QueryHistoryItem) : Prop :=
  trim (text item) = text item /\ text item <> [].

(** What every render of the component finds. *)
Definition wellformed (st : State) : Prop :=
  cursor_in_range st
  /\ (List.length (queryHistory st) <= 20)%nat
  /\ Forall recorded (queryHistory st)
  /\ isLoading st = false.

End ChatUI.

(* ================================================================== *)
(** ** components/response-comparison.tsx: a session with no older call *)

Module Session.
Import JS Dispatcher.

(** The graph call is in flight, the graph side pending and the loading
    flag up; or the call has settled and the flag is down. *)
Definition graph_tracks_loading (sys : System) : Prop :=
  (outstanding KGSide (inflight sys) = 1%nat
   /\ isPending (kgOutcome (ui sys)) = true
   /\ isLoading (ui sys) = true)
  \/ (outstanding KGSide (inflight sys) = 0%nat
      /\ isLoading (ui sys) = false).

End Session.

(* ================================================================== *)
(** ** app/api/query-vector-only/route.ts: the parts of [GET] by name *)

Module Proxy.
Import JS Route.

(** [process.env.API_BASE_URL || "http://localhost:8000"] *)
Definition apiUrl (API_BASE_URL : option jsstring) : jsstring :=
  if truthy_ostring API_BASE_URL
  then match API_BASE_URL with Some u => u | None => [] end
  else lit "http://localhost:8000".

(** The one [fetch] of the handler, for an encoded query. *)
Definition callFor (API_BASE_URL : option jsstring) (encoded : jsstring)
  : BackendRequest :=
  {| url := apiUrl API_BASE_URL ++ lit "/query-with-vector-only?query=" ++ encoded;
     method := lit "GET";
     requestHeaders :=
       [(lit "Content-Type", lit "application/json");
        (lit "Cache-Control", lit "no-cache")] |}.

(** The response that relays the backend's data. *)
Definition relayed (data : Json) : NextResponse :=
  json data None [(lit "Cache-Control", lit "no-store, max-age=0")].

(** *** Sample environments *)

(** An encoder that leaves ASCII letters alone. *)
Definition plainEncode (s : jsstring) : Thrown + jsstring := inr s.

(** An encoder that raises, as on a lone surrogate. *)
Definition malformedEncode (s : jsstring) : Thrown + jsstring :=
  inl (ErrorObject (lit "URI malformed")).

(** A parser that yields the same value for every text. *)
Definition parseTo (data : Json) (txt : jsstring) : Thrown + Json := inr data.

(** A backend that answers every call alike. *)
Definition answering (code : Z) (txt : jsstring) (call : BackendRequest)
  : Settlement :=
  Fulfilled {| backendStatus := code; text := inr txt |}.

Definition asking (q : jsstring) : NextRequest :=
  {| searchParams := [(lit "query", q)] |}.

End Proxy.

(* ================================================================== *)
(** ** hooks/use-toast.tsx and components/ui/toaster.tsx *)

Module Toasts.
Import JS.

Inductive ToastType := default | success | error | info.

Record Toast := {
  id : jsstring;
  type : ToastType;
  message : jsstring
}.

(** [add].  [fresh] is the value of
    [Math.random().toString(36).slice(2, 9)]; an omitted [type] is
    ["default"]. *)
Definition add (fresh : jsstring) (message : jsstring)
    (type : option ToastType) (prev : list Toast) : list Toast :=
  prev ++ [ {| id := fresh;
               type := match type with Some t => t | None => default end;
               message := message |} ].

(** [dismiss] *)
Definition dismiss (id' : jsstring) (prev : list Toast) : list Toast :=
  filter (fun toast => negb (eqb (id toast) id')) prev.

(** [clear] *)
Definition clear (prev : list Toast) : list Toast := [].

(** [Toaster]: one card per toast, in order; the [onClose] of the card of
    [toast] dismisses [toast.id]. *)
Definition onClose (toast : Toast) (prev : list Toast) : list Toast :=
  dismiss (id toast) prev.

End Toasts.

(* ================================================================== *)
(** * Properties *)

Import JS.

(** ** Strings *)

Section TrimFacts.

Lemma trimStart_blank (s : jsstring) :
  trimStart s = [] <-> forallb isWhiteSpace s = true.
Proof.
  induction s as [|c s IH]; simpl.
  - tauto.
  - destruct (isWhiteSpace c); simpl.
    + exact IH.
    + split; discriminate.
Qed.

(** What [trimStart] leaves starts with a character that is not white
    space. *)
Lemma trimStart_head (s : jsstring) (c : N) (rest : jsstring) :
  trimStart s = c :: rest -> isWhiteSpace c = false.
Proof.
  induction s as [|d s IH]; simpl.
  - discriminate.
  - destruct (isWhiteSpace d) eqn:Hd.
    + exact IH.
    + intros [= -> _]. exact Hd.
Qed.

Lemma forallb_rev {A} (f : A -> bool) (l : list A) :
  forallb f (rev l) = forallb f l.
Proof.
  induction l as [|a l IH]; simpl.
  - reflexivity.
  - rewrite forallb_app, IH. simpl. rewrite andb_true_r. apply andb_comm.
Qed.

Lemma rev_nil_inv {A} (l : list A) : rev l = [] -> l = [].
Proof.
  intros H. rewrite <- (rev_involutive l), H. reflexivity.
Qed.

(** [trim] leaves nothing exactly of the strings made of white space. *)
Lemma trim_blank (s : jsstring) :
  trim s = [] <-> forallb isWhiteSpace s = true.
Proof.
  unfold trim, trimEnd. split.
  - intros H. apply rev_nil_inv in H.
    apply trimStart_blank in H. rewrite forallb_rev in H.
    destruct (trimStart s) as [|c rest] eqn:Hs.
    + apply trimStart_blank. exact Hs.
    + apply trimStart_head in Hs. simpl in H. rewrite Hs in H. discriminate.
  - intros H. apply trimStart_blank in H. rewrite H. reflexivity.
Qed.

End TrimFacts.

(** ** Query submission *)

Section Submission.
Import Chat.

(** C5.  Submitting a text whose trim is empty, that is, an empty text or
    one made of white space only, does nothing: the state is returned as it
    was (the history is the same, the input field keeps its text) and no
    effect, so no [newQuery] event, is produced. *)
Theorem handleSubmit_blank_noop (now : Z) (dispatchThrows : bool) (st : State) :
  trim (query st) = [] \/ forallb isWhiteSpace (query st) = true ->
  handleSubmit now dispatchThrows st = (st, []).
Proof.
  intros H.
  assert (Hb : trim (query st) = []).
  { destruct H as [H|H]; [exact H | apply trim_blank; exact H]. }
  unfold handleSubmit. rewrite Hb. reflexivity.
Qed.

Lemma handleSubmit_blank_noop_witness :
  (trim (query (typed (lit "   "))) = []
   \/ forallb isWhiteSpace (query (typed (lit "   "))) = true)
  /\ handleSubmit 1700000000000 false (typed (lit "   "))
     = (typed (lit "   "), []).
Proof.
  split.
  - right. reflexivity.
  - apply (handleSubmit_blank_noop 1700000000000 false (typed (lit "   "))).
    right. reflexivity.
Defined.

Lemma firstn_length_le {A} (n : nat) (l : list A) :
  (List.length (firstn n l) <= n)%nat.
Proof.
  rewrite length_firstn. apply Nat.le_min_l.
Qed.

(** C6.  Submitting a text X whose trim is not empty, on any history: the
    new history is a new item with text [trim X] followed by the 19 most
    recent earlier items (so older ones are dropped), exactly one
    [newQuery] event is dispatched and it carries [trim X], and the new
    history has at most 20 items. *)
Theorem handleSubmit_records_query (now : Z) (dispatchThrows : bool) (st : State) :
  trim (query st) <> [] ->
  let st' := fst (handleSubmit now dispatchThrows st) in
  let effects := snd (handleSubmit now dispatchThrows st) in
  (exists item,
      queryHistory st' = item :: firstn 19 (queryHistory st)
      /\ text item = trim (query st))
  /\ signals effects = [trim (query st)]
  /\ (List.length (queryHistory st') <= 20)%nat.
Proof.
  intros Hne. unfold handleSubmit.
  destruct (trim (query st)) as [|c rest] eqn:Ht; [congruence|].
  cbn [truthy_string negb].
  destruct dispatchThrows; cbn -[firstn toString].
  all: repeat split; try (eexists; split; reflexivity).
  all: apply le_n_S, (firstn_length_le 19).
Qed.

Lemma handleSubmit_records_query_witness :
  trim (query (typed (lit " What is diabetes? "))) <> []
  /\ signals (snd (handleSubmit 1700000000000 false
                     (typed (lit " What is diabetes? "))))
     = [lit "What is diabetes?"].
Proof.
  split.
  - simpl. discriminate.
  - apply (handleSubmit_records_query 1700000000000 false
             (typed (lit " What is diabetes? "))).
    simpl. discriminate.
Defined.

End Submission.

(** ** History navigation *)

Section Navigation.
Import Chat.

Lemma length_nonneg {A} (l : list A) : 0 <= length l.
Proof. unfold length. lia. Qed.

(** A read at a position of the array finds an element. *)
Lemma index_in_bounds {A} (arr : list A) (i : Z) :
  0 <= i < length arr -> exists a, index arr i = Some a.
Proof.
  unfold index, length. intros H.
  destruct (i <? 0) eqn:Hi; [lia|].
  destruct (nth_error arr (Z.to_nat i)) as [a|] eqn:Hn.
  - exists a. reflexivity.
  - apply nth_error_None in Hn. lia.
Qed.

(** C7.  On the history ["a"; "b"; "c"] (most recent first), from an empty
    input field with nothing selected: four steps up give "a", "b", "c"
    and "c" again (the cursor stays on the oldest entry), then four steps
    down give "b", "a", the empty text and the empty text again (the
    cursor stays at -1). *)
Theorem navigate_abc_scenario :
  trace [up; up; up; up; down; down; down; down]
        (browsing (historyOf [lit "a"; lit "b"; lit "c"]))
  = [Some (0, lit "a"); Some (1, lit "b"); Some (2, lit "c");
     Some (2, lit "c");
     Some (1, lit "b"); Some (0, lit "a"); Some (-1, []); Some (-1, [])].
Proof. reflexivity. Qed.

(** One step keeps the cursor in range, reads inside the history, and
    leaves the history as it is. *)
Lemma navigateHistory_in_range (d : Direction) (st : State) :
  cursor_in_range st ->
  exists st', navigateHistory d st = Some st'
              /\ cursor_in_range st'
              /\ queryHistory st' = queryHistory st.
Proof.
  unfold cursor_in_range, navigateHistory. intros Hr.
  destruct (length (queryHistory st) =? 0) eqn:Hlen.
  - exists st. auto.
  - apply Z.eqb_neq in Hlen.
    pose proof (length_nonneg (queryHistory st)) as Hpos.
    destruct d.
    + destruct (historyIndex st <? length (queryHistory st) - 1) eqn:Hlt.
      * apply Z.ltb_lt in Hlt.
        destruct (index_in_bounds (queryHistory st) (historyIndex st + 1))
          as [item Hitem]; [lia|].
        rewrite Hitem.
        replace ((0 <=? historyIndex st + 1)
                 && (historyIndex st + 1 <? length (queryHistory st)))
          with true by (symmetry; apply andb_true_iff; split;
                        [apply Z.leb_le | apply Z.ltb_lt]; lia).
        eexists. split; [reflexivity|]. simpl. split; [lia | reflexivity].
      * apply Z.ltb_ge in Hlt.
        assert (Hidx : historyIndex st = length (queryHistory st) - 1) by lia.
        destruct (index_in_bounds (queryHistory st) (historyIndex st))
          as [item Hitem]; [lia|].
        rewrite Hitem.
        replace ((0 <=? historyIndex st)
                 && (historyIndex st <? length (queryHistory st)))
          with true by (symmetry; apply andb_true_iff; split;
                        [apply Z.leb_le | apply Z.ltb_lt]; lia).
        eexists. split; [reflexivity|]. simpl. split; [lia | reflexivity].
    + destruct (0 <? historyIndex st) eqn:Hlt.
      * apply Z.ltb_lt in Hlt.
        destruct (index_in_bounds (queryHistory st) (historyIndex st - 1))
          as [item Hitem]; [lia|].
        rewrite Hitem.
        replace (0 <=? historyIndex st - 1) with true
          by (symmetry; apply Z.leb_le; lia).
        eexists. split; [reflexivity|]. simpl. split; [lia | reflexivity].
      * eexists. split; [reflexivity|]. simpl. split; [lia | reflexivity].
Qed.

Lemma navigateHistory_empty (d : Direction) (st : State) :
  queryHistory st = [] -> navigateHistory d st = Some st.
Proof.
  intros H. unfold navigateHistory. rewrite H. reflexivity.
Qed.

(** C10.  Over any sequence of up/down steps from a state whose cursor is
    in [-1 .. n-1], n the length of the history: no step reads outside the
    history (the sequence runs to a state, none of its reads raises), the
    history is unchanged and the cursor of the final state is again in
    [-1 .. n-1].  On an empty history every such sequence returns the state
    it started from, cursor and input field included. *)
Theorem navigate_cursor_in_range (steps : list Direction) (st : State) :
  cursor_in_range st ->
  (exists st', navigate steps st = Some st'
               /\ queryHistory st' = queryHistory st
               /\ -1 <= historyIndex st' <= length (queryHistory st) - 1)
  /\ (queryHistory st = [] -> navigate steps st = Some st).
Proof.
  intros Hr. split.
  - revert st Hr. induction steps as [|d steps IH]; intros st Hr.
    + exists st. repeat split; apply Hr.
    + destruct (navigateHistory_in_range d st Hr) as (st1 & Hstep & Hr1 & Hh1).
      destruct (IH st1 Hr1) as (st' & Hrun & Hh & Hc).
      exists st'. simpl. rewrite Hstep. rewrite Hh1 in Hh, Hc. auto.
  - intros Hempty. clear Hr.
    induction steps as [|d steps IH]; simpl.
    + reflexivity.
    + rewrite (navigateHistory_empty d st Hempty). exact IH.
Qed.

Lemma navigate_cursor_in_range_witness :
  cursor_in_range (browsing (historyOf [lit "a"; lit "b"; lit "c"]))
  /\ exists st',
       navigate [up; up; up; up; down]
                (browsing (historyOf [lit "a"; lit "b"; lit "c"])) = Some st'
       /\ queryHistory st' = historyOf [lit "a"; lit "b"; lit "c"]
       /\ -1 <= historyIndex st' <= 2.
Proof.
  split.
  - unfold cursor_in_range. simpl. lia.
  - apply (navigate_cursor_in_range [up; up; up; up; down]
             (browsing (historyOf [lit "a"; lit "b"; lit "c"]))).
    unfold cursor_in_range. simpl. lia.
Defined.

End Navigation.

(** ** Dual dispatch *)

Section Dispatch.
Import Dispatcher.

(** *** What each handler writes *)

Lemma handleQuery_cells (q : jsstring) (s : State) :
  handleQuery q s =
  {| query := q; isLoading := true;
     vectorResponse := JNull; kgResponse := JNull;
     vectorError := None; kgError := None;
     vectorTime := vectorTime s; kgTime := kgTime s |}.
Proof. reflexivity. Qed.

(** A vector settlement writes the vector cells only. *)
Lemma fetchVectorResponse_frame settled elapsed (s : State) :
  let s' := fetchVectorResponse settled elapsed s in
  query s' = query s /\ isLoading s' = isLoading s
  /\ kgResponse s' = kgResponse s /\ kgError s' = kgError s
  /\ kgTime s' = kgTime s.
Proof.
  unfold fetchVectorResponse. destruct (tryBlock settled); simpl; auto.
Qed.

(** A graph settlement writes the graph cells and the loading flag. *)
Lemma fetchKGResponse_frame settled elapsed (s : State) :
  let s' := fetchKGResponse settled elapsed s in
  query s' = query s /\ isLoading s' = false
  /\ vectorResponse s' = vectorResponse s /\ vectorError s' = vectorError s
  /\ vectorTime s' = vectorTime s.
Proof.
  unfold fetchKGResponse. destruct (tryBlock settled); simpl; auto.
Qed.

Lemma vectorOutcome_ext (s s' : State) :
  vectorResponse s' = vectorResponse s -> vectorError s' = vectorError s ->
  vectorTime s' = vectorTime s -> vectorOutcome s' = vectorOutcome s.
Proof. unfold vectorOutcome. intros -> -> ->. reflexivity. Qed.

Lemma kgOutcome_ext (s s' : State) :
  kgResponse s' = kgResponse s -> kgError s' = kgError s ->
  kgTime s' = kgTime s -> kgOutcome s' = kgOutcome s.
Proof. unfold kgOutcome. intros -> -> ->. reflexivity. Qed.

(** *** Superseded calls *)

(** C1, as stated, fails: a vector call of "q1" that settles after "q2"
    was submitted is written into the session of "q2". *)
Lemma stale_settlement_overwrites :
  exists sys sys',
    run [NewQuery (lit "q1"); NewQuery (lit "q2")] start = Some sys
    /\ query (ui sys) = lit "q2"
    /\ step (VectorSettled (lit "q1") (answered (sampleVector (lit "q1"))) 50) sys
       = Some sys'
    /\ query (ui sys') = lit "q2"
    /\ vectorOutcome (ui sys) = Pending
    /\ vectorOutcome (ui sys') = Success (sampleVector (lit "q1")) (Some 50)
    /\ ui sys' <> ui sys.
Proof.
  do 2 eexists. split; [reflexivity|].
  repeat (split; [reflexivity|]).
  simpl. intros H. discriminate H.
Qed.

(** C1, amended.  A settlement of a call, of a superseded query or of the
    current one, leaves the current query as it is and writes to its own
    side only: a vector settlement leaves the graph response, error and
    time and the loading flag unchanged; a graph settlement leaves the
    vector response, error and time unchanged. *)
Theorem settlement_confined_to_side (e : Event) (q1 : jsstring)
    (sys sys' : System) :
  settles e = Some q1 ->
  step e sys = Some sys' ->
  query (ui sys') = query (ui sys)
  /\ match e with
     | NewQuery _ => True
     | VectorSettled _ _ _ =>
         kgResponse (ui sys') = kgResponse (ui sys)
         /\ kgError (ui sys') = kgError (ui sys)
         /\ kgTime (ui sys') = kgTime (ui sys)
         /\ isLoading (ui sys') = isLoading (ui sys)
     | KGSettled _ _ _ =>
         vectorResponse (ui sys') = vectorResponse (ui sys)
         /\ vectorError (ui sys') = vectorError (ui sys)
         /\ vectorTime (ui sys') = vectorTime (ui sys)
     end.
Proof.
  destruct e as [q | q settled elapsed | q settled elapsed]; simpl.
  - discriminate.
  - intros _.
    destruct (settle _ (inflight sys)); [|discriminate].
    intros [= <-]. simpl.
    destruct (fetchVectorResponse_frame settled elapsed (ui sys))
      as (Hq & Hl & Hr & He & Ht).
    repeat split; assumption.
  - intros _.
    destruct (settle _ (inflight sys)); [|discriminate].
    intros [= <-]. simpl.
    destruct (fetchKGResponse_frame settled elapsed (ui sys))
      as (Hq & Hl & Hr & He & Ht).
    repeat split; assumption.
Qed.

Lemma settlement_confined_to_side_witness :
  settles (VectorSettled (lit "q1") (answered (sampleVector (lit "q1"))) 50)
  = Some (lit "q1")
  /\ step (VectorSettled (lit "q1") (answered (sampleVector (lit "q1"))) 50)
          (after [NewQuery (lit "q1"); NewQuery (lit "q2")])
     = Some (after [NewQuery (lit "q1"); NewQuery (lit "q2");
                    VectorSettled (lit "q1")
                      (answered (sampleVector (lit "q1"))) 50])
  /\ query (ui (after [NewQuery (lit "q1"); NewQuery (lit "q2");
                       VectorSettled (lit "q1")
                         (answered (sampleVector (lit "q1"))) 50]))
     = query (ui (after [NewQuery (lit "q1"); NewQuery (lit "q2")])).
Proof.
  split; [reflexivity|]. split; [reflexivity|].
  apply (settlement_confined_to_side
           (VectorSettled (lit "q1") (answered (sampleVector (lit "q1"))) 50)
           (lit "q1")
           (after [NewQuery (lit "q1"); NewQuery (lit "q2")])
           (after [NewQuery (lit "q1"); NewQuery (lit "q2");
                   VectorSettled (lit "q1")
                     (answered (sampleVector (lit "q1"))) 50]));
    reflexivity.
Defined.

(** *** One settlement per side *)

Lemma Call_eqb_side (a b : Call) : Call_eqb a b = true -> side a = side b.
Proof.
  unfold Call_eqb. destruct (side a), (side b); intros H;
    try reflexivity; discriminate.
Qed.

(** Settling a call takes one call of its side out of flight and leaves
    the other side's calls. *)
Lemma settle_outstanding (c : Call) (calls rest : list Call) (sd : Side) :
  settle c calls = Some rest ->
  outstanding sd calls
  = if Side_eqb sd (side c) then S (outstanding sd rest)
    else outstanding sd rest.
Proof.
  revert rest. induction calls as [|c' calls IH]; intros rest; simpl.
  - discriminate.
  - destruct (Call_eqb c c') eqn:Hc.
    + intros [= <-]. apply Call_eqb_side in Hc. rewrite Hc. reflexivity.
    + destruct (settle c calls) as [rest'|]; [|discriminate].
      intros [= <-]. simpl. rewrite (IH rest' eq_refl).
      destruct (Side_eqb sd (side c')), (Side_eqb sd (side c)); reflexivity.
Qed.

(** A query submitted while nothing is in flight starts one call per
    side. *)
Lemma single_flight_submit (q : jsstring) (sys sys' : System) :
  inflight sys = [] -> step (NewQuery q) sys = Some sys' -> single_flight sys'.
Proof.
  intros Hidle [= <-]. unfold single_flight. simpl. rewrite Hidle. simpl.
  split; right; split; reflexivity.
Qed.

Lemma single_flight_settle (e : Event) (sys sys' : System) :
  isNewQuery e = false -> step e sys = Some sys' ->
  single_flight sys -> single_flight sys'.
Proof.
  unfold single_flight.
  destruct e as [q | q settled elapsed | q settled elapsed]; simpl;
    [discriminate | |]; intros _.
  - destruct (settle _ (inflight sys)) as [rest|] eqn:Hs; [|discriminate].
    intros [= <-]. simpl.
    pose proof (settle_outstanding _ _ _ VectorSide Hs) as Hv.
    pose proof (settle_outstanding _ _ _ KGSide Hs) as Hk.
    simpl in Hv, Hk. rewrite Hk.
    intros [[Hv0 | [Hv1 _]] Hkg].
    + rewrite Hv0 in Hv. discriminate.
    + split.
      * left. rewrite Hv1 in Hv. injection Hv as Hv. auto.
      * destruct Hkg as [Hk0 | [Hk1 Hp]]; [left; exact Hk0 | right].
        split; [exact Hk1|].
        destruct (fetchVectorResponse_frame settled elapsed (ui sys))
          as (_ & _ & Hr & He & Ht).
        rewrite (kgOutcome_ext _ _ Hr He Ht). exact Hp.
  - destruct (settle _ (inflight sys)) as [rest|] eqn:Hs; [|discriminate].
    intros [= <-]. simpl.
    pose proof (settle_outstanding _ _ _ VectorSide Hs) as Hv.
    pose proof (settle_outstanding _ _ _ KGSide Hs) as Hk.
    simpl in Hv, Hk. rewrite Hv.
    intros [Hvec [Hk0 | [Hk1 _]]].
    + rewrite Hk0 in Hk. discriminate.
    + split.
      * destruct Hvec as [Hv0 | [Hv1 Hp]]; [left; exact Hv0 | right].
        split; [exact Hv1|].
        destruct (fetchKGResponse_frame settled elapsed (ui sys))
          as (_ & _ & Hr & He & Ht).
        rewrite (vectorOutcome_ext _ _ Hr He Ht). exact Hp.
      * left. rewrite Hk1 in Hk. injection Hk as Hk. auto.
Qed.

Lemma single_flight_run (events : list Event) (sys sys' : System) :
  existsb isNewQuery events = false -> run events sys = Some sys' ->
  single_flight sys -> single_flight sys'.
Proof.
  revert sys. induction events as [|e events IH]; intros sys; simpl.
  - intros _ [= <-]. auto.
  - intros Hno. apply orb_false_iff in Hno. destruct Hno as [He Hrest].
    destruct (step e sys) as [sys1|] eqn:Hstep; [|discriminate].
    intros Hrun Hinv. apply (IH sys1 Hrest Hrun).
    exact (single_flight_settle e sys sys1 He Hstep Hinv).
Qed.




(** *** The loading flag *)

(** C2 on the code: the graph call of a query settles first; the loading
    flag is then false although the vector side is still Pending, its call
    still in flight. *)
Theorem loading_cleared_by_graph_settlement :
  exists sys,
    run [NewQuery (lit "What is diabetes?");
         KGSettled (lit "What is diabetes?")
                   (answered (sampleKG (lit "What is diabetes?"))) 120]
        start = Some sys
    /\ isLoading (ui sys) = false
    /\ vectorOutcome (ui sys) = Pending
    /\ outstanding VectorSide (inflight sys) = 1%nat
    /\ query (ui sys) = lit "What is diabetes?".
Proof.
  eexists. split; [reflexivity|]. repeat split.
Qed.

(** *** Replacing the session *)

(** C3 on the code: "q1" has settled on both sides, in 50 ms and 120 ms;
    submitting "q2" sets the query and makes both sides Pending, but both
    times of "q1" are still in the session. *)
Theorem handleQuery_keeps_times :
  exists sys sys',
    run [NewQuery (lit "q1");
         VectorSettled (lit "q1") (answered (sampleVector (lit "q1"))) 50;
         KGSettled (lit "q1") (answered (sampleKG (lit "q1"))) 120]
        start = Some sys
    /\ step (NewQuery (lit "q2")) sys = Some sys'
    /\ query (ui sys') = lit "q2"
    /\ vectorOutcome (ui sys') = Pending
    /\ kgOutcome (ui sys') = Pending
    /\ vectorTime (ui sys') = Some 50
    /\ kgTime (ui sys') = Some 120.
Proof.
  do 2 eexists. split; [reflexivity|]. repeat split.
Qed.

(** *** The latency badge *)

(** With a time other than 0 the badge reads the time followed by "ms";
    without a time there is no badge. *)
Lemma badgeSlot_label (n : Z) :
  n <> 0 -> badgeSlot (Some n) = Badge (toString n ++ lit "ms").
Proof.
  intros Hn. unfold badgeSlot, formatTime, truthy_onumber.
  apply Z.eqb_neq in Hn. rewrite Hn. reflexivity.
Qed.

Lemma badgeSlot_null : badgeSlot None = NoBadge.
Proof. reflexivity. Qed.

(** C8 on the code: after "q1" settled in 50 ms and 120 ms, "q2" is
    submitted; both panels show the skeleton of a Pending side while the
    badges still read "50ms" and "120ms".  And a time of 0, though
    available, gives no badge. *)
Theorem stale_latency_badge_rendered :
  option_map (fun sys => render (ui sys))
    (run [NewQuery (lit "q1");
          VectorSettled (lit "q1") (answered (sampleVector (lit "q1"))) 50;
          KGSettled (lit "q1") (answered (sampleKG (lit "q1"))) 120;
          NewQuery (lit "q2")]
         start)
  = Some (Comparison (lit "q2") true
            (Badge (lit "50ms")) Skeleton (Badge (lit "120ms")) Skeleton)
  /\ badgeSlot (Some 0) = BareNumber 0.
Proof.
  split; reflexivity.
Qed.

End Dispatch.

(** ** The vector-only proxy route *)

Section ProxyRoute.
Import Route.

(** C9.  A GET request whose "query" search parameter is absent, or present
    and empty, is answered with status 400 and the JSON body
    [{"error": "Query parameter is required"}], and no backend call is
    made, whatever the environment of the handler. *)
Theorem GET_requires_query
    (API_BASE_URL : option jsstring)
    (encodeURIComponent : jsstring -> Thrown + jsstring)
    (JSON_parse : jsstring -> Thrown + Json)
    (backend : BackendRequest -> Settlement)
    (request : NextRequest) :
  get (lit "query") (searchParams request) = None
  \/ get (lit "query") (searchParams request) = Some [] ->
  GET API_BASE_URL encodeURIComponent JSON_parse backend request
  = ({| status := 400;
        headers := [];
        body := JObject [(lit "error",
                          JString (lit "Query parameter is required"))] |},
     []).
Proof.
  intros H. unfold GET. destruct H as [-> | ->]; reflexivity.
Qed.

Lemma GET_requires_query_witness :
  (get (lit "query") (searchParams {| searchParams := [(lit "query", [])] |})
   = None
   \/ get (lit "query") (searchParams {| searchParams := [(lit "query", [])] |})
      = Some [])
  /\ fst (GET None (fun s => inr s) (fun _ => inr JNull)
              (fun _ => Rejected (ErrorObject (lit "fetch failed")))
              {| searchParams := [(lit "query", [])] |})
     = {| status := 400;
          headers := [];
          body := JObject [(lit "error",
                            JString (lit "Query parameter is required"))] |}.
Proof.
  split.
  - right. reflexivity.
  - rewrite (GET_requires_query None (fun s => inr s) (fun _ => inr JNull)
               (fun _ => Rejected (ErrorObject (lit "fetch failed")))
               {| searchParams := [(lit "query", [])] |}).
    + reflexivity.
    + right. reflexivity.
Defined.

End ProxyRoute.

(** ** The whole input surface *)

Section InputSurface.
Import Chat ChatUI.

Lemma eqb_eq (a b : jsstring) : eqb a b = true <-> a = b.
Proof.
  revert b. induction a as [|x a IH]; intros [|y b]; simpl.
  - tauto.
  - split; discriminate.
  - split; discriminate.
  - rewrite andb_true_iff, N.eqb_eq, IH. split.
    + intros [-> ->]. reflexivity.
    + intros [= -> ->]. auto.
Qed.

Lemma eqb_refl (a : jsstring) : eqb a a = true.
Proof. apply eqb_eq. reflexivity. Qed.

Lemma trimStart_keeps (c : N) (x y : jsstring) :
  isWhiteSpace c = false -> trimStart (x ++ c :: y) = trimStart x ++ c :: y.
Proof.
  intros Hc. induction x as [|d x IH]; simpl.
  - rewrite Hc. reflexivity.
  - destruct (isWhiteSpace d); [exact IH | reflexivity].
Qed.

Lemma trimStart_idempotent (x : jsstring) :
  trimStart (trimStart x) = trimStart x.
Proof.
  destruct (trimStart x) as [|c r] eqn:Hx; [reflexivity|].
  apply trimStart_head in Hx. simpl. rewrite Hx. reflexivity.
Qed.

(** Trimming a trimmed text changes nothing. *)
Lemma trim_idempotent (s : jsstring) : trim (trim s) = trim s.
Proof.
  unfold trim, trimEnd.
  destruct (trimStart s) as [|c u] eqn:Hu; [reflexivity|].
  pose proof (trimStart_head s c u Hu) as Hc.
  assert (Hrev : trimStart (rev (c :: u)) = trimStart (rev u) ++ [c]).
  { simpl rev. apply trimStart_keeps. exact Hc. }
  rewrite Hrev. rewrite rev_app_distr.
  change (rev [c] ++ rev (trimStart (rev u)))
    with (c :: rev (trimStart (rev u))).
  assert (Hfix : trimStart (c :: rev (trimStart (rev u)))
                 = c :: rev (trimStart (rev u))).
  { simpl. rewrite Hc. reflexivity. }
  rewrite Hfix.
  change (rev (c :: rev (trimStart (rev u))))
    with (rev (rev (trimStart (rev u))) ++ [c]).
  rewrite rev_involutive.
  rewrite (trimStart_keeps c _ [] Hc), trimStart_idempotent.
  rewrite rev_app_distr. reflexivity.
Qed.


Lemma Forall_firstn {A} (P : A -> Prop) (n : nat) (l : list A) :
  Forall P l -> Forall P (firstn n l).
Proof.
  revert n. induction l as [|a l IH]; intros [|n] H; simpl; auto.
  inversion H; subst. constructor; auto.
Qed.

(** *** What every render finds *)

Lemma wellformed_initial : wellformed initial.
Proof.
  unfold wellformed, cursor_in_range. simpl. repeat split; try lia.
  constructor.
Qed.

Lemma wellformed_setQuery (v : jsstring) (st : State) :
  wellformed st -> wellformed (setQuery v st).
Proof. unfold wellformed, cursor_in_range. simpl. auto. Qed.

Lemma wellformed_handleSubmit (now : Z) (dispatchThrows : bool) (st : State) :
  wellformed st -> wellformed (fst (handleSubmit now dispatchThrows st)).
Proof.
  intros Hw. unfold handleSubmit.
  destruct (trim (query st)) as [|c rest] eqn:Ht; [exact Hw|].
  cbn [truthy_string negb].
  destruct Hw as (_ & _ & Hrec & _).
  assert (Hgoal : forall q,
             wellformed
               {| query := q; isLoading := false;
                  queryHistory :=
                    {| id := toString now; text := c :: rest; timestamp := now |}
                    :: slice0 19 (queryHistory st);
                  historyIndex := -1 |}).
  { intros q. unfold wellformed, cursor_in_range, length, slice0.
    cbn [queryHistory historyIndex isLoading List.length].
    pose proof (firstn_length_le 19 (queryHistory st)).
    repeat split; try lia.
    constructor.
    - unfold recorded. cbn [text]. rewrite <- Ht. split.
      + apply trim_idempotent.
      + rewrite Ht. discriminate.
    - apply Forall_firstn. exact Hrec. }
  destruct dispatchThrows; apply Hgoal.
Qed.

(** A navigation step writes the cursor and the input field only. *)
Lemma navigateHistory_frame (d : Direction) (st st' : State) :
  navigateHistory d st = Some st' ->
  queryHistory st' = queryHistory st /\ isLoading st' = isLoading st.
Proof.
  unfold navigateHistory.
  destruct (length (queryHistory st) =? 0); [intros [= <-]; auto|].
  destruct d.
  - destruct (_ && _).
    + destruct (index _ _); [|discriminate]. intros [= <-]. auto.
    + intros [= <-]. auto.
  - destruct (0 <=? _).
    + destruct (index _ _); [|discriminate]. intros [= <-]. auto.
    + intros [= <-]. auto.
Qed.

Lemma wellformed_navigateHistory (d : Direction) (st : State) :
  wellformed st ->
  exists st', navigateHistory d st = Some st' /\ wellformed st'.
Proof.
  intros (Hc & Hlen & Hrec & Hload).
  destruct (navigateHistory_in_range d st Hc) as (st' & Hstep & Hc' & Hh).
  exists st'. split; [exact Hstep|].
  destruct (navigateHistory_frame d st st' Hstep) as [_ Hl].
  unfold wellformed. rewrite Hh, Hl. auto.
Qed.

Lemma wellformed_react (e : UIEvent) (st : State) :
  wellformed st ->
  exists st' effects, react e st = Some (st', effects) /\ wellformed st'.
Proof.
  intros Hw.
  assert (Hnav : forall d, exists st' effects,
               quiet (navigateHistory d st) = Some (st', effects)
               /\ wellformed st').
  { intros d. destruct (wellformed_navigateHistory d st Hw) as (st' & -> & Hw').
    exists st', []. auto. }
  assert (Hsub : forall now throws, exists st' effects,
               Some (handleSubmit now throws st) = Some (st', effects)
               /\ wellformed st').
  { intros now throws. pose proof (wellformed_handleSubmit now throws st Hw).
    destruct (handleSubmit now throws st) as [st' effects].
    exists st', effects. auto. }
  assert (Hsame : exists st' effects,
               Some (st, @nil Effect) = Some (st', effects) /\ wellformed st').
  { exists st, []. auto. }
  destruct e as [v | key shiftKey now throws | now throws | | | i]; simpl.
  - exists (setQuery v st), []. split; [reflexivity|].
    apply wellformed_setQuery. exact Hw.
  - destruct key; simpl.
    + destruct (negb shiftKey); auto.
    + destruct (negb shiftKey && eqb (query st) []); auto.
    + destruct (negb shiftKey); auto.
    + auto.
  - destruct (sendDisabled st); auto.
  - destruct (upDisabled st); auto.
  - destruct (downDisabled st); auto.
  - destruct (nth_error (chips st) i) as [item|]; auto.
    exists (setQuery (text item) st), []. split; [reflexivity|].
    apply wellformed_setQuery. exact Hw.
Qed.

Lemma wellformed_run (events : list UIEvent) (st : State) :
  wellformed st ->
  exists st' effects, run events st = Some (st', effects) /\ wellformed st'.
Proof.
  revert st. induction events as [|e events IH]; intros st Hw; simpl.
  - exists st, []. auto.
  - destruct (wellformed_react e st Hw) as (st1 & eff1 & -> & Hw1).
    destruct (IH st1 Hw1) as (st2 & eff2 & -> & Hw2).
    exists st2, (eff1 ++ eff2). auto.
Qed.

Lemma handleSubmit_no_rejection (now : Z) (st : State) :
  ~ In UnhandledTypeError (snd (handleSubmit now false st)).
Proof.
  unfold handleSubmit.
  destruct (truthy_string (trim (query st))); simpl; intuition discriminate.
Qed.

Lemma quiet_effects (r : option State) (st : State) (effects : list Effect) :
  quiet r = Some (st, effects) -> effects = [].
Proof. destruct r; simpl; [intros [= _ <-]; reflexivity | discriminate]. Qed.

Lemma react_no_rejection (e : UIEvent) (st st' : State) (effects : list Effect) :
  dispatchRaises e = false -> react e st = Some (st', effects) ->
  ~ In UnhandledTypeError effects.
Proof.
  assert (Hnil : forall (x y : State) (effs : list Effect),
             Some (x, @nil Effect) = Some (y, effs) ->
             ~ In UnhandledTypeError effs).
  { intros x y effs [= _ <-]. simpl. tauto. }
  assert (Hquiet : forall r y effs,
             quiet r = Some (y, effs) -> ~ In UnhandledTypeError effs).
  { intros r y effs H. rewrite (quiet_effects _ _ _ H). simpl. tauto. }
  assert (Hsub : forall now y effs,
             Some (handleSubmit now false st) = Some (y, effs) ->
             ~ In UnhandledTypeError effs).
  { intros now y effs [= H]. pose proof (handleSubmit_no_rejection now st) as Hc.
    rewrite H in Hc. exact Hc. }
  destruct e as [v | key shiftKey now throws | now throws | | | i]; simpl.
  - intros _. apply Hnil.
  - intros ->. destruct key; simpl.
    + destruct (negb shiftKey); [apply Hsub | apply Hnil].
    + destruct (negb shiftKey && eqb (query st) []); [apply Hquiet | apply Hnil].
    + destruct (negb shiftKey); [apply Hquiet | apply Hnil].
    + apply Hnil.
  - intros ->. destruct (sendDisabled st); [apply Hnil | apply Hsub].
  - intros _. destruct (upDisabled st); [apply Hnil | apply Hquiet].
  - intros _. destruct (downDisabled st); [apply Hnil | apply Hquiet].
  - intros _. destruct (nth_error (chips st) i); apply Hnil.
Qed.

Lemma run_no_rejection (events : list UIEvent) (st st' : State)
    (effects : list Effect) :
  existsb dispatchRaises events = false -> run events st = Some (st', effects) ->
  ~ In UnhandledTypeError effects.
Proof.
  revert st st' effects.
  induction events as [|e events IH]; intros st st' effects; simpl.
  - intros _ [= _ <-]. simpl. tauto.
  - intros Hno. apply orb_false_iff in Hno. destruct Hno as [He Hrest].
    destruct (react e st) as [[st1 eff1]|] eqn:Hreact; [|discriminate].
    destruct (run events st1) as [[st2 eff2]|] eqn:Hrun; [|discriminate].
    intros [= _ <-]. rewrite in_app_iff. intros [H | H].
    + exact (react_no_rejection e st st1 eff1 He Hreact H).
    + exact (IH st1 st2 eff2 Hrest Hrun H).
Qed.

(** X1.  Whatever the user does from mount on (typing, keys with or
    without Shift, the three buttons, the chips): no handler raises while
    it runs (no history read is out of range), and the state that is
    rendered has at most 20 history items, each with a trimmed text that is
    not empty, a cursor that is -1 or a position of the history, and a
    loading flag that is false (it is raised and lowered within one
    handler).  The promise of [handleSubmit] rejects, [toast] being
    undefined, at most when [window.dispatchEvent] raised: as long as that
    does not happen, no rejection is among the effects. *)
Theorem every_render_wellformed (events : list UIEvent) :
  exists st effects,
    run events initial = Some (st, effects)
    /\ (List.length (queryHistory st) <= 20)%nat
    /\ (forall item, In item (queryHistory st) ->
          trim (text item) = text item /\ text item <> [])
    /\ -1 <= historyIndex st <= length (queryHistory st) - 1
    /\ isLoading st = false
    /\ (existsb dispatchRaises events = false ->
        ~ In UnhandledTypeError effects).
Proof.
  destruct (wellformed_run events initial wellformed_initial)
    as (st & effects & Hrun & Hc & Hlen & Hrec & Hload).
  exists st, effects.
  split; [exact Hrun|]. split; [exact Hlen|]. split.
  { intros item Hin. exact (proj1 (Forall_forall _ _) Hrec item Hin). }
  split; [exact Hc|]. split; [exact Hload|].
  intros Hno. exact (run_no_rejection events initial st effects Hno Hrun).
Qed.

(** *** The history as a bounded buffer *)

Lemma firstn_app_cut {A} (n m : nat) (xs : list A) (a : A) (l : list A) :
  (m <= S n)%nat ->
  firstn m (xs ++ a :: firstn n l) = firstn m (xs ++ a :: l).
Proof.
  revert m. induction xs as [|x xs IH]; intros [|m] Hm; simpl; try reflexivity.
  - rewrite firstn_firstn. rewrite Nat.min_l by lia. reflexivity.
  - rewrite IH by lia. reflexivity.
Qed.

Lemma handleSubmit_texts (now : Z) (dispatchThrows : bool) (t : jsstring)
    (st : State) :
  map text (queryHistory (fst (handleSubmit now dispatchThrows (setQuery t st))))
  = if truthy_string (trim t)
    then trim t :: firstn 19 (map text (queryHistory st))
    else map text (queryHistory st).
Proof.
  unfold handleSubmit. cbn [query setQuery].
  destruct (truthy_string (trim t)); cbn [negb]; [|reflexivity].
  destruct dispatchThrows; cbn -[firstn trim toString];
    unfold slice0; rewrite firstn_map; reflexivity.
Qed.

(** X2.  Typing and submitting texts one after the other, on a history of
    at most 20 items: blank texts leave no trace, and the history then
    holds the trimmed texts, the last submitted first, followed by the
    earlier items, cut to the 20 most recent. *)
Theorem history_keeps_last_twenty (texts : list jsstring) (now : Z) (st : State) :
  (List.length (queryHistory st) <= 20)%nat ->
  map text (queryHistory (submitAll texts now st))
  = firstn 20
      (rev (map trim (filter (fun t => truthy_string (trim t)) texts))
       ++ map text (queryHistory st)).
Proof.
  revert now st. induction texts as [|t texts IH]; intros now st Hlen.
  - cbn [submitAll filter map rev app].
    rewrite firstn_all2; [reflexivity|]. rewrite length_map. exact Hlen.
  - cbn [submitAll filter].
    assert (Hlen1 : (List.length
                       (queryHistory (fst (handleSubmit now false (setQuery t st))))
                     <= 20)%nat).
    { rewrite <- (length_map text), handleSubmit_texts.
      destruct (truthy_string (trim t)).
      - cbn [List.length].
        pose proof (firstn_length_le 19 (map text (queryHistory st))). lia.
      - rewrite length_map. exact Hlen. }
    rewrite (IH (now + 1) _ Hlen1), handleSubmit_texts.
    destruct (truthy_string (trim t)); [|reflexivity].
    cbn [map rev]. rewrite <- app_assoc. cbn [app].
    apply firstn_app_cut. lia.
Qed.

Lemma history_keeps_last_twenty_witness :
  (List.length (queryHistory initial) <= 20)%nat
  /\ map text (queryHistory
                 (submitAll [lit " a "; lit "  "; lit "b"] 1700000000000 initial))
     = [lit "b"; lit "a"].
Proof.
  split.
  - simpl. lia.
  - rewrite (history_keeps_last_twenty [lit " a "; lit "  "; lit "b"]
               1700000000000 initial).
    + reflexivity.
    + simpl. lia.
Defined.

(** *** Keys, buttons and chips *)

Lemma eqb_nil_false (x : jsstring) : x <> [] -> eqb x [] = false.
Proof. destruct x; [congruence | reflexivity]. Qed.

(** X4.  From a rendered state, a second ArrowUp key press does nothing:
    the first one either does nothing (field not empty, or no history) or
    loads a history text, which is not empty, and ArrowUp acts on an empty
    field only.  So the keyboard alone walks one step back at most. *)
Theorem arrow_up_key_once (now1 now2 : Z) (throws1 throws2 : bool) (st : State) :
  wellformed st ->
  exists st1,
    handleKeyDown ArrowUp false now1 throws1 st = Some (st1, [])
    /\ handleKeyDown ArrowUp false now2 throws2 st1 = Some (st1, [])
    /\ (historyIndex st1 = historyIndex st
        \/ historyIndex st1 = historyIndex st + 1).
Proof.
  intros Hw. unfold handleKeyDown. cbn [negb andb].
  destruct (eqb (query st) []) eqn:Hq.
  - apply eqb_eq in Hq.
    destruct Hw as (Hc & _ & Hrec & _).
    unfold navigateHistory. unfold cursor_in_range in Hc.
    destruct (length (queryHistory st) =? 0) eqn:Hlen.
    + exists st. simpl. rewrite Hq. simpl. unfold navigateHistory.
      rewrite Hlen. auto.
    + apply Z.eqb_neq in Hlen.
      pose proof (length_nonneg (queryHistory st)) as Hpos.
      set (newIndex := if historyIndex st <? length (queryHistory st) - 1
                       then historyIndex st + 1 else historyIndex st).
      assert (Hnew : 0 <= newIndex < length (queryHistory st)
                     /\ (newIndex = historyIndex st
                         \/ newIndex = historyIndex st + 1)).
      { unfold newIndex.
        destruct (historyIndex st <? length (queryHistory st) - 1) eqn:Hlt;
          [apply Z.ltb_lt in Hlt | apply Z.ltb_ge in Hlt]; lia. }
      destruct Hnew as [Hin Hmove].
      replace ((0 <=? newIndex) && (newIndex <? length (queryHistory st)))
        with true by (symmetry; apply andb_true_iff; split;
                      [apply Z.leb_le | apply Z.ltb_lt]; lia).
      destruct (index_in_bounds (queryHistory st) newIndex Hin) as [item Hitem].
      rewrite Hitem. simpl.
      assert (Hne : text item <> []).
      { unfold index in Hitem. destruct (newIndex <? 0); [discriminate|].
        apply nth_error_In in Hitem.
        apply (proj1 (Forall_forall _ _) Hrec item Hitem). }
      eexists. split; [reflexivity|]. simpl.
      rewrite (eqb_nil_false _ Hne). auto.
  - exists st. rewrite Hq. auto.
Qed.

Lemma arrow_up_key_once_witness :
  wellformed (browsing (historyOf [lit "a"; lit "b"; lit "c"]))
  /\ exists st1,
       handleKeyDown ArrowUp false 1 false
         (browsing (historyOf [lit "a"; lit "b"; lit "c"])) = Some (st1, [])
       /\ handleKeyDown ArrowUp false 2 false st1 = Some (st1, [])
       /\ (historyIndex st1 = -1 \/ historyIndex st1 = -1 + 1).
Proof.
  assert (Hw : wellformed (browsing (historyOf [lit "a"; lit "b"; lit "c"]))).
  { unfold wellformed, cursor_in_range. simpl. repeat split; try lia.
    repeat constructor; simpl; discriminate. }
  split; [exact Hw|].
  exact (arrow_up_key_once 1 2 false false
           (browsing (historyOf [lit "a"; lit "b"; lit "c"])) Hw).
Defined.

(** X5.  Recalling a shown history chip and pressing Enter submits that
    item's very text: one [newQuery] event carries it, a new item with the
    same text heads the history, and the field is cleared. *)
Theorem chip_resubmits_its_text (i : nat) (item : QueryHistoryItem) (now : Z)
    (st : State) :
  wellformed st ->
  nth_error (chips st) i = Some item ->
  exists st',
    run [ClickChip i; KeyDown Enter false now false] st
    = Some (st', [DispatchNewQuery (text item)])
    /\ queryHistory st'
       = {| id := toString now; text := text item; timestamp := now |}
         :: firstn 19 (queryHistory st)
    /\ query st' = []
    /\ historyIndex st' = -1.
Proof.
  intros (_ & _ & Hrec & _) Hchip.
  assert (Hitem : recorded item).
  { apply nth_error_In in Hchip. unfold chips, slice0 in Hchip.
    apply (proj1 (Forall_forall _ _) (Forall_firstn _ 5 _ Hrec) item Hchip). }
  destruct Hitem as [Htrim Hne].
  cbn [run react]. rewrite Hchip. cbn [handleKeyDown negb].
  unfold handleSubmit. cbn [query setQuery].
  rewrite Htrim.
  destruct (text item) as [|c rest] eqn:Ht; [congruence|].
  cbn -[firstn toString]. eexists. repeat split.
Qed.

Lemma chip_resubmits_its_text_witness :
  wellformed (browsing (historyOf [lit "a"; lit "b"; lit "c"]))
  /\ nth_error (chips (browsing (historyOf [lit "a"; lit "b"; lit "c"]))) 1
     = Some {| id := lit "b"; text := lit "b"; timestamp := 0 |}
  /\ exists st',
       run [ClickChip 1; KeyDown Enter false 7 false]
           (browsing (historyOf [lit "a"; lit "b"; lit "c"]))
       = Some (st', [DispatchNewQuery (lit "b")])
       /\ queryHistory st'
          = {| id := toString 7; text := lit "b"; timestamp := 7 |}
            :: firstn 19 (historyOf [lit "a"; lit "b"; lit "c"])
       /\ query st' = []
       /\ historyIndex st' = -1.
Proof.
  assert (Hw : wellformed (browsing (historyOf [lit "a"; lit "b"; lit "c"]))).
  { unfold wellformed, cursor_in_range. simpl. repeat split; try lia.
    repeat constructor; simpl; discriminate. }
  split; [exact Hw|]. split; [reflexivity|].
  exact (chip_resubmits_its_text 1
           {| id := lit "b"; text := lit "b"; timestamp := 0 |} 7
           (browsing (historyOf [lit "a"; lit "b"; lit "c"])) Hw eq_refl).
Defined.

(** X6.  The "next query" button is enabled only on a cursor above 0; a
    click then moves the cursor down by one and loads the text at the new
    position, which is not empty.  So the button never gives the empty
    field back: only the ArrowDown key reaches cursor -1. *)
Theorem down_button_loads_newer (st : State) :
  wellformed st ->
  downDisabled st = false ->
  exists item,
    index (queryHistory st) (historyIndex st - 1) = Some item
    /\ react ClickDown st
       = Some (setQuery (text item) (setHistoryIndex (historyIndex st - 1) st), [])
    /\ text item <> [].
Proof.
  intros (Hc & _ & Hrec & _) Hen. unfold downDisabled in Hen.
  apply Z.leb_gt in Hen. unfold cursor_in_range in Hc.
  destruct (index_in_bounds (queryHistory st) (historyIndex st - 1))
    as [item Hitem]; [lia|].
  exists item. split; [exact Hitem|]. split.
  - cbn [react]. unfold downDisabled.
    replace (historyIndex st <=? 0) with false by (symmetry; apply Z.leb_gt; lia).
    unfold navigateHistory.
    replace (length (queryHistory st) =? 0) with false
      by (symmetry; apply Z.eqb_neq; lia).
    replace (0 <? historyIndex st) with true by (symmetry; apply Z.ltb_lt; lia).
    replace (0 <=? historyIndex st - 1) with true
      by (symmetry; apply Z.leb_le; lia).
    rewrite Hitem. reflexivity.
  - unfold index in Hitem. destruct (historyIndex st - 1 <? 0); [discriminate|].
    apply nth_error_In in Hitem.
    apply (proj1 (Forall_forall _ _) Hrec item Hitem).
Qed.

Lemma down_button_loads_newer_witness :
  wellformed (setHistoryIndex 2 (browsing (historyOf [lit "a"; lit "b"; lit "c"])))
  /\ downDisabled
       (setHistoryIndex 2 (browsing (historyOf [lit "a"; lit "b"; lit "c"])))
     = false
  /\ exists item,
       index (historyOf [lit "a"; lit "b"; lit "c"]) (2 - 1) = Some item
       /\ react ClickDown
            (setHistoryIndex 2 (browsing (historyOf [lit "a"; lit "b"; lit "c"])))
          = Some (setQuery (text item)
                    (setHistoryIndex (2 - 1)
                       (setHistoryIndex 2
                          (browsing (historyOf [lit "a"; lit "b"; lit "c"])))),
                  [])
       /\ text item <> [].
Proof.
  assert (Hw : wellformed
                 (setHistoryIndex 2
                    (browsing (historyOf [lit "a"; lit "b"; lit "c"])))).
  { unfold wellformed, cursor_in_range. simpl. repeat split; try lia.
    repeat constructor; simpl; discriminate. }
  split; [exact Hw|]. split; [reflexivity|].
  exact (down_button_loads_newer
           (setHistoryIndex 2 (browsing (historyOf [lit "a"; lit "b"; lit "c"])))
           Hw eq_refl).
Defined.


(** X3.  In a rendered state the send button is disabled exactly when
    submitting would do nothing, that is, when the text is blank: the
    button's guard and the handler's guard agree. *)
Theorem send_button_matches_guard (now : Z) (dispatchThrows : bool) (st : State) :
  wellformed st ->
  (sendDisabled st = true <-> handleSubmit now dispatchThrows st = (st, []))
  /\ (sendDisabled st = true <-> forallb isWhiteSpace (query st) = true).
Proof.
  intros (_ & _ & _ & Hload). unfold sendDisabled. rewrite Hload. cbn [orb].
  split.
  - unfold handleSubmit.
    destruct (truthy_string (trim (query st))); cbn [negb].
    + split; [discriminate|].
      destruct dispatchThrows; intros H; discriminate H.
    + tauto.
  - rewrite <- trim_blank.
    destruct (trim (query st)); simpl; split; congruence.
Qed.

Lemma send_button_matches_guard_witness :
  wellformed (typed (lit "   "))
  /\ (sendDisabled (typed (lit "   ")) = true
      <-> handleSubmit 5 false (typed (lit "   ")) = (typed (lit "   "), [])).
Proof.
  assert (Hw : wellformed (typed (lit "   "))).
  { unfold wellformed, cursor_in_range. simpl. repeat split; try lia.
    constructor. }
  split; [exact Hw|].
  exact (proj1 (send_button_matches_guard 5 false (typed (lit "   ")) Hw)).
Defined.

End InputSurface.

(** ** Settlements of one session *)

Section Settlements.
Import Dispatcher Session.

(** X7.  A response whose status is outside 200-299 is never read: whatever
    its body, the side's error becomes "API error: " followed by the status,
    the side's response and time stay as they were, and the graph fetcher
    lowers the loading flag all the same. *)
Theorem error_status_becomes_message
    (vr kr : Response) (elapsed : Z) (s : State) :
  ok vr = false -> ok kr = false ->
  (vectorError (fetchVectorResponse (Fulfilled vr) elapsed s)
   = Some (lit "API error: " ++ toString (status vr))
   /\ vectorResponse (fetchVectorResponse (Fulfilled vr) elapsed s)
      = vectorResponse s
   /\ vectorTime (fetchVectorResponse (Fulfilled vr) elapsed s) = vectorTime s)
  /\ (kgError (fetchKGResponse (Fulfilled kr) elapsed s)
      = Some (lit "API error: " ++ toString (status kr))
      /\ kgResponse (fetchKGResponse (Fulfilled kr) elapsed s) = kgResponse s
      /\ kgTime (fetchKGResponse (Fulfilled kr) elapsed s) = kgTime s
      /\ isLoading (fetchKGResponse (Fulfilled kr) elapsed s) = false).
Proof.
  intros Hv Hk. unfold fetchVectorResponse, fetchKGResponse, tryBlock.
  rewrite Hv, Hk. cbn -[toString lit]. repeat split.
Qed.

Lemma error_status_becomes_message_witness :
  ok {| status := 500; json := inr (sampleVector (lit "q")) |} = false
  /\ ok {| status := 404; json := inr (sampleKG (lit "q")) |} = false
  /\ vectorError
       (fetchVectorResponse
          (Fulfilled {| status := 500; json := inr (sampleVector (lit "q")) |})
          30 (handleQuery (lit "q") initial))
     = Some (lit "API error: 500").
Proof.
  split; [reflexivity|]. split; [reflexivity|].
  exact (proj1 (proj1 (error_status_becomes_message
           {| status := 500; json := inr (sampleVector (lit "q")) |}
           {| status := 404; json := inr (sampleKG (lit "q")) |}
           30 (handleQuery (lit "q") initial) eq_refl eq_refl))).
Defined.

(** The two fetchers write different cells. *)
Lemma fetchers_commute sv tv sk tk (s : State) :
  fetchKGResponse sk tk (fetchVectorResponse sv tv s)
  = fetchVectorResponse sv tv (fetchKGResponse sk tk s).
Proof.
  unfold fetchKGResponse, fetchVectorResponse.
  destruct (tryBlock sv), (tryBlock sk); reflexivity.
Qed.

Lemma settle_commute (a b : Call) (calls : list Call) :
  side a <> side b ->
  match settle a calls with
  | Some rest => settle b rest
  | None => None
  end
  = match settle b calls with
    | Some rest => settle a rest
    | None => None
    end.
Proof.
  intros Hab. induction calls as [|c calls IH]; simpl; [reflexivity|].
  destruct (Call_eqb a c) eqn:Ha, (Call_eqb b c) eqn:Hb.
  - apply Call_eqb_side in Ha. apply Call_eqb_side in Hb. congruence.
  - destruct (settle b calls) as [rest|]; simpl; [|reflexivity].
    rewrite Ha. reflexivity.
  - destruct (settle a calls) as [rest|]; simpl; [|reflexivity].
    rewrite Hb. reflexivity.
  - destruct (settle a calls) as [ra|], (settle b calls) as [rb|];
      simpl; rewrite ?Ha, ?Hb.
    + simpl in IH. rewrite IH. reflexivity.
    + simpl in IH. rewrite IH. reflexivity.
    + simpl in IH. rewrite <- IH. reflexivity.
    + reflexivity.
Qed.

(** X8.  The order in which a vector call and a graph call settle does not
    matter: both orders are possible from the same states and lead to the
    same session and the same calls left in flight. *)
Theorem settlement_order_irrelevant qv sv tv qk sk tk (sys : System) :
  run [VectorSettled qv sv tv; KGSettled qk sk tk] sys
  = run [KGSettled qk sk tk; VectorSettled qv sv tv] sys.
Proof.
  pose proof (settle_commute {| side := VectorSide; arg := qv |}
                {| side := KGSide; arg := qk |} (inflight sys)) as Hc.
  cbn [side] in Hc. specialize (Hc ltac:(discriminate)).
  cbn [run step].
  destruct (settle {| side := VectorSide; arg := qv |} (inflight sys)) as [rv|],
           (settle {| side := KGSide; arg := qk |} (inflight sys)) as [rk|];
    cbn [inflight ui].
  - rewrite Hc.
    destruct (settle {| side := VectorSide; arg := qv |} rk); [|reflexivity].
    rewrite fetchers_commute. reflexivity.
  - rewrite Hc. reflexivity.
  - rewrite <- Hc. reflexivity.
  - reflexivity.
Qed.


(** *** Sessions started with nothing in flight *)

Lemma graph_tracks_submit (q : jsstring) (sys sys' : System) :
  inflight sys = [] -> step (NewQuery q) sys = Some sys' ->
  graph_tracks_loading sys'.
Proof.
  intros Hidle [= <-]. unfold graph_tracks_loading. simpl. rewrite Hidle.
  left. repeat split.
Qed.

Lemma graph_tracks_settle (e : Event) (sys sys' : System) :
  isNewQuery e = false -> step e sys = Some sys' ->
  graph_tracks_loading sys -> graph_tracks_loading sys'.
Proof.
  unfold graph_tracks_loading.
  destruct e as [q | q settled elapsed | q settled elapsed]; simpl;
    [discriminate | |]; intros _.
  - destruct (settle _ (inflight sys)) as [rest|] eqn:Hs; [|discriminate].
    intros [= <-]. simpl.
    pose proof (settle_outstanding _ _ _ KGSide Hs) as Hk. simpl in Hk.
    destruct (fetchVectorResponse_frame settled elapsed (ui sys))
      as (_ & Hl & Hr & He & Ht).
    rewrite <- Hk, Hl, (kgOutcome_ext _ _ Hr He Ht). auto.
  - destruct (settle _ (inflight sys)) as [rest|] eqn:Hs; [|discriminate].
    intros [= <-]. simpl.
    pose proof (settle_outstanding _ _ _ KGSide Hs) as Hk. simpl in Hk.
    destruct (fetchKGResponse_frame settled elapsed (ui sys))
      as (_ & Hl & _).
    intros [(H1 & _) | (H0 & _)].
    + right. rewrite H1 in Hk. injection Hk as Hk. auto.
    + rewrite H0 in Hk. discriminate.
Qed.

Lemma graph_tracks_run (events : list Event) (sys sys' : System) :
  existsb isNewQuery events = false -> run events sys = Some sys' ->
  graph_tracks_loading sys -> graph_tracks_loading sys'.
Proof.
  revert sys. induction events as [|e events IH]; intros sys; simpl.
  - intros _ [= <-]. auto.
  - intros Hno. apply orb_false_iff in Hno. destruct Hno as [He Hrest].
    destruct (step e sys) as [sys1|] eqn:Hstep; [|discriminate].
    intros Hrun Hinv. apply (IH sys1 Hrest Hrun).
    exact (graph_tracks_settle e sys sys1 He Hstep Hinv).
Qed.

(** The state a session is in: submitted with nothing in flight, then
    settlements only. *)
Lemma session_split (q : jsstring) (events : list Event) (sys0 sys1 : System) :
  run (NewQuery q :: events) sys0 = Some sys1 ->
  exists sysA, step (NewQuery q) sys0 = Some sysA /\ run events sysA = Some sys1.
Proof.
  intros Hrun.
  change (run (NewQuery q :: events) sys0)
    with (match step (NewQuery q) sys0 with
          | Some sys' => run events sys'
          | None => None
          end) in Hrun.
  destruct (step (NewQuery q) sys0) as [sysA|]; [|discriminate].
  exists sysA. auto.
Qed.

(** X9.  In a session submitted with nothing in flight, and until the next
    submission, the loading flag is up exactly while the graph call is in
    flight and down exactly once it has settled; while the flag is up the
    graph side is Pending.  The vector call has no part in it. *)
Theorem loading_follows_graph_call (sys0 : System) (q : jsstring)
    (events : list Event) (sys1 : System) :
  inflight sys0 = [] ->
  existsb isNewQuery events = false ->
  run (NewQuery q :: events) sys0 = Some sys1 ->
  (isLoading (ui sys1) = true <-> outstanding KGSide (inflight sys1) = 1%nat)
  /\ (isLoading (ui sys1) = false <-> outstanding KGSide (inflight sys1) = 0%nat)
  /\ (isLoading (ui sys1) = true -> isPending (kgOutcome (ui sys1)) = true).
Proof.
  intros Hidle Hno Hrun.
  destruct (session_split q events sys0 sys1 Hrun) as (sysA & Hsubmit & HrunA).
  pose proof (graph_tracks_run events sysA sys1 Hno HrunA
                (graph_tracks_submit q sys0 sysA Hidle Hsubmit)) as Hinv.
  destruct Hinv as [(Hk & Hp & Hl) | (Hk & Hl)]; rewrite Hk, Hl.
  - repeat split; auto; discriminate.
  - repeat split; auto; discriminate.
Qed.

Lemma loading_follows_graph_call_witness :
  inflight start = []
  /\ existsb isNewQuery
       [VectorSettled (lit "q1") (answered (sampleVector (lit "q1"))) 50]
     = false
  /\ (isLoading
        (ui (after [NewQuery (lit "q1");
                    VectorSettled (lit "q1")
                      (answered (sampleVector (lit "q1"))) 50])) = true
      <-> outstanding KGSide
            (inflight (after [NewQuery (lit "q1");
                              VectorSettled (lit "q1")
                                (answered (sampleVector (lit "q1"))) 50]))
          = 1%nat).
Proof.
  split; [reflexivity|]. split; [reflexivity|].
  apply (loading_follows_graph_call start (lit "q1")
           [VectorSettled (lit "q1") (answered (sampleVector (lit "q1"))) 50]
           (after [NewQuery (lit "q1");
                   VectorSettled (lit "q1")
                     (answered (sampleVector (lit "q1"))) 50]));
    reflexivity.
Defined.

Lemma pending_vector_cells (s : State) :
  isPending (vectorOutcome s) = true ->
  vectorResponse s = JNull /\ vectorError s = None.
Proof.
  unfold vectorOutcome.
  destruct (vectorError s), (vectorResponse s); simpl; auto; discriminate.
Qed.

Lemma pending_kg_cells (s : State) :
  isPending (kgOutcome s) = true -> kgResponse s = JNull /\ kgError s = None.
Proof.
  unfold kgOutcome.
  destruct (kgError s), (kgResponse s); simpl; auto; discriminate.
Qed.

(** X10.  In a session submitted with nothing in flight, and until the next
    submission, the settlement of a side's call leaves in that side's three
    cells (response, error, time): for a rejected fetch, no response, the
    message of the error ("Unknown error" for a thrown value that is no
    [Error]) and the time as it was; for a status outside 200-299, no
    response, "API error: " with the status, and the time as it was; for a
    status inside, either the same with the message of what
    [response.json()] threw, or the body as it is ([null] included), no
    error and the elapsed time.  Nothing of the side's earlier response or
    error is mixed in. *)
Theorem settlement_stores_its_result (sys0 : System) (q : jsstring)
    (events : list Event) (sys1 : System) :
  inflight sys0 = [] ->
  existsb isNewQuery events = false ->
  run (NewQuery q :: events) sys0 = Some sys1 ->
  (forall q' settled elapsed sys2,
      step (VectorSettled q' settled elapsed) sys1 = Some sys2 ->
      (vectorResponse (ui sys2), vectorError (ui sys2), vectorTime (ui sys2))
      = match settled with
        | Rejected (ErrorObject message) =>
            (JNull, Some message, vectorTime (ui sys1))
        | Rejected OtherValue =>
            (JNull, Some (lit "Unknown error"), vectorTime (ui sys1))
        | Fulfilled response =>
            if (200 <=? status response) && (status response <=? 299) then
              match json response with
              | inl (ErrorObject message) =>
                  (JNull, Some message, vectorTime (ui sys1))
              | inl OtherValue =>
                  (JNull, Some (lit "Unknown error"), vectorTime (ui sys1))
              | inr data => (data, None, Some elapsed)
              end
            else (JNull,
                  Some (lit "API error: " ++ toString (status response)),
                  vectorTime (ui sys1))
        end)
  /\ (forall q' settled elapsed sys2,
         step (KGSettled q' settled elapsed) sys1 = Some sys2 ->
         (kgResponse (ui sys2), kgError (ui sys2), kgTime (ui sys2))
         = match settled with
           | Rejected (ErrorObject message) =>
               (JNull, Some message, kgTime (ui sys1))
           | Rejected OtherValue =>
               (JNull, Some (lit "Unknown error"), kgTime (ui sys1))
           | Fulfilled response =>
               if (200 <=? status response) && (status response <=? 299) then
                 match json response with
                 | inl (ErrorObject message) =>
                     (JNull, Some message, kgTime (ui sys1))
                 | inl OtherValue =>
                     (JNull, Some (lit "Unknown error"), kgTime (ui sys1))
                 | inr data => (data, None, Some elapsed)
                 end
               else (JNull,
                     Some (lit "API error: " ++ toString (status response)),
                     kgTime (ui sys1))
           end).
Proof.
  intros Hidle Hno Hrun.
  destruct (session_split q events sys0 sys1 Hrun) as (sysA & Hsubmit & HrunA).
  pose proof (single_flight_run events sysA sys1 Hno HrunA
                (single_flight_submit q sys0 sysA Hidle Hsubmit)) as [Hvec Hkg].
  split; intros q' settled elapsed sys2; simpl.
  - destruct (settle _ (inflight sys1)) as [rest|] eqn:Hs; [|discriminate].
    intros [= <-]. simpl.
    pose proof (settle_outstanding _ _ _ VectorSide Hs) as Hv. simpl in Hv.
    destruct Hvec as [Hv0 | [_ Hp]]; [rewrite Hv0 in Hv; discriminate|].
    destruct (pending_vector_cells _ Hp) as [Hr He].
    unfold fetchVectorResponse, tryBlock, ok.
    destruct settled as [[message|] | response]; cbn -[toString lit];
      rewrite ?Hr, ?He; try reflexivity.
    destruct ((200 <=? status response) && (status response <=? 299));
      cbn -[toString lit]; rewrite ?Hr, ?He; try reflexivity.
    destruct (json response) as [[message|] | data]; cbn -[toString lit];
      rewrite ?Hr, ?He; reflexivity.
  - destruct (settle _ (inflight sys1)) as [rest|] eqn:Hs; [|discriminate].
    intros [= <-]. simpl.
    pose proof (settle_outstanding _ _ _ KGSide Hs) as Hk. simpl in Hk.
    destruct Hkg as [Hk0 | [_ Hp]]; [rewrite Hk0 in Hk; discriminate|].
    destruct (pending_kg_cells _ Hp) as [Hr He].
    unfold fetchKGResponse, tryBlock, ok.
    destruct settled as [[message|] | response]; cbn -[toString lit];
      rewrite ?Hr, ?He; try reflexivity.
    destruct ((200 <=? status response) && (status response <=? 299));
      cbn -[toString lit]; rewrite ?Hr, ?He; try reflexivity.
    destruct (json response) as [[message|] | data]; cbn -[toString lit];
      rewrite ?Hr, ?He; reflexivity.
Qed.

Lemma settlement_stores_its_result_witness :
  inflight start = []
  /\ existsb isNewQuery [] = false
  /\ run (NewQuery (lit "q1") :: []) start = Some (after [NewQuery (lit "q1")])
  /\ (vectorResponse
        (ui (after [NewQuery (lit "q1");
                    VectorSettled (lit "q1") (refused 500) 30])),
      vectorError
        (ui (after [NewQuery (lit "q1");
                    VectorSettled (lit "q1") (refused 500) 30])),
      vectorTime
        (ui (after [NewQuery (lit "q1");
                    VectorSettled (lit "q1") (refused 500) 30])))
     = (JNull, Some (lit "API error: 500"), None)
  /\ (kgResponse
        (ui (after [NewQuery (lit "q1");
                    KGSettled (lit "q1") (answered (sampleKG (lit "q1"))) 120])),
      kgError
        (ui (after [NewQuery (lit "q1");
                    KGSettled (lit "q1") (answered (sampleKG (lit "q1"))) 120])),
      kgTime
        (ui (after [NewQuery (lit "q1");
                    KGSettled (lit "q1") (answered (sampleKG (lit "q1"))) 120])))
     = (sampleKG (lit "q1"), None, Some 120).
Proof.
  split; [reflexivity|]. split; [reflexivity|]. split; [reflexivity|].
  split.
  - exact (proj1 (settlement_stores_its_result start (lit "q1") []
                    (after [NewQuery (lit "q1")]) eq_refl eq_refl eq_refl)
             (lit "q1") (refused 500) 30
             (after [NewQuery (lit "q1");
                     VectorSettled (lit "q1") (refused 500) 30])
             eq_refl).
  - exact (proj2 (settlement_stores_its_result start (lit "q1") []
                    (after [NewQuery (lit "q1")]) eq_refl eq_refl eq_refl)
             (lit "q1") (answered (sampleKG (lit "q1"))) 120
             (after [NewQuery (lit "q1");
                     KGSettled (lit "q1") (answered (sampleKG (lit "q1"))) 120])
             eq_refl).
Defined.



(** *** A session runs to its end *)

Lemma settle_length (c : Call) (calls rest : list Call) :
  settle c calls = Some rest -> List.length calls = S (List.length rest).
Proof.
  revert rest. induction calls as [|c' calls IH]; intros rest; simpl.
  - discriminate.
  - destruct (Call_eqb c c'); [intros [= <-]; reflexivity|].
    destruct (settle c calls) as [rest'|]; [|discriminate].
    intros [= <-]. simpl. rewrite (IH rest' eq_refl). reflexivity.
Qed.

(** Each settlement takes one call out of flight. *)
Lemma settlements_counted (events : list Event) (sys sys' : System) :
  existsb isNewQuery events = false -> run events sys = Some sys' ->
  List.length (inflight sys)
  = (List.length events + List.length (inflight sys'))%nat.
Proof.
  revert sys. induction events as [|e events IH]; intros sys; simpl.
  - intros _ [= <-]. reflexivity.
  - intros Hno. apply orb_false_iff in Hno. destruct Hno as [He Hrest].
    destruct (step e sys) as [sys1|] eqn:Hstep; [|discriminate].
    intros Hrun. rewrite <- (IH sys1 Hrest Hrun).
    destruct e as [q | q settled elapsed | q settled elapsed]; simpl in *;
      [discriminate | |].
    + destruct (settle _ (inflight sys)) as [rest|] eqn:Hs; [|discriminate].
      injection Hstep as <-. simpl. apply (settle_length _ _ _ Hs).
    + destruct (settle _ (inflight sys)) as [rest|] eqn:Hs; [|discriminate].
      injection Hstep as <-. simpl. apply (settle_length _ _ _ Hs).
Qed.

(** X12.  A session submitted with nothing in flight takes two settlements
    at most before the next submission, and after two it is over: nothing
    is in flight, the loading flag is down, and no further settlement can
    arrive.  So queries submitted one after the other, each after both
    calls of the previous one have settled, never meet a superseded
    call. *)
Theorem session_runs_to_its_end (sys0 : System) (q : jsstring)
    (events : list Event) (sys1 : System) :
  inflight sys0 = [] ->
  existsb isNewQuery events = false ->
  run (NewQuery q :: events) sys0 = Some sys1 ->
  (List.length events <= 2)%nat
  /\ (List.length events = 2%nat ->
      inflight sys1 = []
      /\ isLoading (ui sys1) = false
      /\ forall e, isNewQuery e = false -> step e sys1 = None).
Proof.
  intros Hidle Hno Hrun.
  destruct (session_split q events sys0 sys1 Hrun) as (sysA & Hsubmit & HrunA).
  pose proof (settlements_counted events sysA sys1 Hno HrunA) as Hcount.
  pose proof (graph_tracks_run events sysA sys1 Hno HrunA
                (graph_tracks_submit q sys0 sysA Hidle Hsubmit)) as Hkg.
  injection Hsubmit as <-. cbn [inflight] in Hcount.
  rewrite Hidle in Hcount. cbn [app List.length] in Hcount.
  split; [lia|]. intros Htwo.
  assert (Hnone : inflight sys1 = []).
  { destruct (inflight sys1); [reflexivity | simpl in Hcount; lia]. }
  unfold graph_tracks_loading in Hkg. rewrite Hnone in Hkg.
  split; [exact Hnone|]. split.
  - destruct Hkg as [(Hk & _) | (_ & Hl)]; [discriminate Hk | exact Hl].
  - intros [q' | q' settled elapsed | q' settled elapsed] He;
      [discriminate He | |]; simpl; rewrite Hnone; reflexivity.
Qed.

Lemma session_runs_to_its_end_witness :
  inflight start = []
  /\ existsb isNewQuery
       [KGSettled (lit "q1") (refused 500) 120;
        VectorSettled (lit "q1") (answered JNull) 150]
     = false
  /\ run (NewQuery (lit "q1")
          :: [KGSettled (lit "q1") (refused 500) 120;
              VectorSettled (lit "q1") (answered JNull) 150]) start
     = Some (after [NewQuery (lit "q1");
                    KGSettled (lit "q1") (refused 500) 120;
                    VectorSettled (lit "q1") (answered JNull) 150])
  /\ (List.length
        [KGSettled (lit "q1") (refused 500) 120;
         VectorSettled (lit "q1") (answered JNull) 150] <= 2)%nat
  /\ (List.length
        [KGSettled (lit "q1") (refused 500) 120;
         VectorSettled (lit "q1") (answered JNull) 150] = 2%nat ->
      inflight (after [NewQuery (lit "q1");
                       KGSettled (lit "q1") (refused 500) 120;
                       VectorSettled (lit "q1") (answered JNull) 150]) = []
      /\ isLoading
           (ui (after [NewQuery (lit "q1");
                       KGSettled (lit "q1") (refused 500) 120;
                       VectorSettled (lit "q1") (answered JNull) 150])) = false
      /\ forall e, isNewQuery e = false ->
           step e (after [NewQuery (lit "q1");
                          KGSettled (lit "q1") (refused 500) 120;
                          VectorSettled (lit "q1") (answered JNull) 150])
           = None).
Proof.
  split; [reflexivity|]. split; [reflexivity|]. split; [reflexivity|].
  exact (session_runs_to_its_end start (lit "q1")
           [KGSettled (lit "q1") (refused 500) 120;
            VectorSettled (lit "q1") (answered JNull) 150]
           (after [NewQuery (lit "q1");
                   KGSettled (lit "q1") (refused 500) 120;
                   VectorSettled (lit "q1") (answered JNull) 150])
           eq_refl eq_refl eq_refl).
Defined.

End Settlements.

(** ** Every path through the proxy route *)

Section ProxyPaths.
Import Route Proxy.

Variable API_BASE_URL : option jsstring.
Variable encodeURIComponent : jsstring -> Thrown + jsstring.
Variable JSON_parse : jsstring -> Thrown + Json.
Variable backend : BackendRequest -> Settlement.

Local Abbreviation handler :=
  (GET API_BASE_URL encodeURIComponent JSON_parse backend).

(** Closes a goal about the status and the calls of a response that is
    known. *)
Ltac known_response :=
  simpl;
  split;
  [ first [ left; reflexivity
          | right; left; reflexivity
          | right; right; reflexivity ]
  | split; [ lia | intros H; first [ discriminate H | reflexivity ] ] ].

(** [GET] on a request that carries a query, as far as the encoding. *)
Lemma GET_with_query (request : NextRequest) (q : jsstring) :
  get (lit "query") (searchParams request) = Some q -> q <> [] ->
  handler request
  = match encodeURIComponent q with
    | inl error => (fetchFailure error, [])
    | inr encoded =>
        (match
            match backend (callFor API_BASE_URL encoded) with
            | Rejected error => inl error
            | Fulfilled response =>
                if negb (ok response) then
                  inl (ErrorObject (lit "Backend API responded with status: "
                                    ++ toString (backendStatus response)))
                else
                  match text response with
                  | inl error => inl error
                  | inr text =>
                      match JSON_parse text with
                      | inl parseError => inr parseFailure
                      | inr data =>
                          if summaryLogs data then inr (relayed data)
                          else inr parseFailure
                      end
                  end
            end
          with
          | inr response => response
          | inl error => fetchFailure error
          end, [callFor API_BASE_URL encoded])
    end.
Proof.
  intros Hget Hne. unfold handler, GET. rewrite Hget.
  destruct q as [|c q]; [congruence|]. reflexivity.
Qed.

Lemma GET_without_query (request : NextRequest) :
  truthy_ostring (get (lit "query") (searchParams request)) = false ->
  handler request = (required, []).
Proof.
  intros H. unfold handler, GET. rewrite H. reflexivity.
Qed.

Lemma query_cases (request : NextRequest) :
  truthy_ostring (get (lit "query") (searchParams request)) = false
  \/ exists q, get (lit "query") (searchParams request) = Some q /\ q <> [].
Proof.
  destruct (get (lit "query") (searchParams request)) as [[|c q]|]; simpl; auto.
  right. eexists. split; [reflexivity | discriminate].
Qed.

(** X13.  Whatever the request and the backend do, the route answers with
    status 200, 400 or 500, and it calls the backend at most once (no
    retry), not at all when it answers 400. *)
Theorem GET_status_and_calls (request : NextRequest) :
  (status (fst (handler request)) = 200
   \/ status (fst (handler request)) = 400
   \/ status (fst (handler request)) = 500)
  /\ (List.length (snd (handler request)) <= 1)%nat
  /\ (status (fst (handler request)) = 400 -> snd (handler request) = []).
Proof.
  destruct (query_cases request) as [Hno | (q & Hget & Hne)].
  - rewrite (GET_without_query request Hno). known_response.
  - rewrite (GET_with_query request q Hget Hne).
    destruct (encodeURIComponent q) as [error|encoded]; [known_response|].
    destruct (backend (callFor API_BASE_URL encoded)) as [error|response];
      [known_response|].
    destruct (negb (ok response)); [known_response|].
    destruct (text response) as [error|txt]; [known_response|].
    destruct (JSON_parse txt) as [error|data]; [known_response|].
    destruct (summaryLogs data); known_response.
Qed.

(** X14.  A 200 answer is always a relay: the request carried a query that
    is not empty, the backend was called with it encoded, answered with a
    status in 200-299 and a text that parses, and the answer's body is
    exactly the parsed data, under [Cache-Control: no-store, max-age=0]. *)
Theorem GET_200_is_relay (request : NextRequest) :
  status (fst (handler request)) = 200 ->
  exists q encoded response txt data,
    get (lit "query") (searchParams request) = Some q
    /\ q <> []
    /\ encodeURIComponent q = inr encoded
    /\ backend (callFor API_BASE_URL encoded) = Fulfilled response
    /\ ok response = true
    /\ text response = inr txt
    /\ JSON_parse txt = inr data
    /\ handler request
       = ({| status := 200;
             headers := [(lit "Cache-Control", lit "no-store, max-age=0")];
             body := data |},
          [callFor API_BASE_URL encoded]).
Proof.
  destruct (query_cases request) as [Hno | (q & Hget & Hne)].
  - rewrite (GET_without_query request Hno). simpl. discriminate.
  - rewrite (GET_with_query request q Hget Hne).
    destruct (encodeURIComponent q) as [error|encoded] eqn:Henc;
      [simpl; discriminate|].
    destruct (backend (callFor API_BASE_URL encoded)) as [error|response] eqn:Hb;
      [simpl; discriminate|].
    destruct (ok response) eqn:Hok; cbn [negb]; [|simpl; discriminate].
    destruct (text response) as [error|txt] eqn:Ht; [simpl; discriminate|].
    destruct (JSON_parse txt) as [error|data] eqn:Hp; [simpl; discriminate|].
    destruct (summaryLogs data); [|simpl; discriminate].
    intros _. exists q, encoded, response, txt, data.
    repeat split; auto.
Qed.

(** X15.  When the backend answers with a status outside 200-299, its body
    is not read: the route answers 500 with the error "Failed to fetch from
    vector-only endpoint" and the details "Backend API responded with
    status: " followed by the status, after that one call. *)
Theorem GET_backend_error_status (request : NextRequest) (q encoded : jsstring)
    (response : BackendResponse) :
  get (lit "query") (searchParams request) = Some q -> q <> [] ->
  encodeURIComponent q = inr encoded ->
  backend (callFor API_BASE_URL encoded) = Fulfilled response ->
  ok response = false ->
  handler request
  = ({| status := 500;
        headers := [];
        body :=
          JObject
            [(lit "error", JString (lit "Failed to fetch from vector-only endpoint"));
             (lit "details",
              JString (lit "Backend API responded with status: "
                       ++ toString (backendStatus response)))] |},
     [callFor API_BASE_URL encoded]).
Proof.
  intros Hget Hne Henc Hb Hok.
  rewrite (GET_with_query request q Hget Hne), Henc, Hb, Hok. reflexivity.
Qed.

(** X16.  A backend text that parses is still reported as "Failed to parse
    JSON response from backend" (500) when the parsed value is [null], or is
    an object whose [summary] is truthy and not a string: reading the
    summary for the log raises inside the same [try]. *)
Theorem GET_parsed_but_rejected (request : NextRequest) (q encoded txt : jsstring)
    (response : BackendResponse) (data : Json) :
  get (lit "query") (searchParams request) = Some q -> q <> [] ->
  encodeURIComponent q = inr encoded ->
  backend (callFor API_BASE_URL encoded) = Fulfilled response ->
  ok response = true ->
  text response = inr txt ->
  JSON_parse txt = inr data ->
  (data = JNull
   \/ exists members v,
        data = JObject members
        /\ assoc (lit "summary") members = Some v
        /\ truthy v = true
        /\ forall s, v <> JString s) ->
  handler request
  = ({| status := 500;
        headers := [];
        body := JObject [(lit "error",
                          JString (lit "Failed to parse JSON response from backend"))] |},
     [callFor API_BASE_URL encoded]).
Proof.
  intros Hget Hne Henc Hb Hok Ht Hp Hdata.
  rewrite (GET_with_query request q Hget Hne), Henc, Hb, Hok. cbn [negb].
  rewrite Ht, Hp.
  assert (Hlog : summaryLogs data = false).
  { destruct Hdata as [-> | (members & v & -> & Hv & Htruthy & Hns)].
    - reflexivity.
    - unfold summaryLogs. rewrite Hv, Htruthy.
      destruct v; try reflexivity. exfalso. apply (Hns s). reflexivity. }
  rewrite Hlog. reflexivity.
Qed.

(** X17.  Every backend call the route makes is the same one: a GET, with
    the two headers of the source, to the base URL followed by
    "/query-with-vector-only?query=" and the encoded query; the base is
    "http://localhost:8000" when [API_BASE_URL] is unset or empty. *)
Theorem GET_call_shape (request : NextRequest) (call : BackendRequest) :
  In call (snd (handler request)) ->
  exists q encoded,
    get (lit "query") (searchParams request) = Some q
    /\ encodeURIComponent q = inr encoded
    /\ method call = lit "GET"
    /\ requestHeaders call
       = [(lit "Content-Type", lit "application/json");
          (lit "Cache-Control", lit "no-cache")]
    /\ url call
       = match API_BASE_URL with
         | Some (c :: base) => c :: base
         | _ => lit "http://localhost:8000"
         end ++ lit "/query-with-vector-only?query=" ++ encoded.
Proof.
  destruct (query_cases request) as [Hno | (q & Hget & Hne)].
  - rewrite (GET_without_query request Hno). simpl. tauto.
  - rewrite (GET_with_query request q Hget Hne).
    destruct (encodeURIComponent q) as [error|encoded] eqn:Henc;
      [simpl; tauto|].
    cbn [snd In]. intros [<- | []].
    exists q, encoded. repeat split; auto.
    unfold callFor, apiUrl. cbn [url].
    destruct API_BASE_URL as [[|c base]|]; reflexivity.
Qed.

(** X18.  A query that cannot be encoded (a lone surrogate makes
    [encodeURIComponent] raise) is answered with 500 and the thrown message
    as details, and the backend is not called. *)
Theorem GET_unencodable_query (request : NextRequest) (q message : jsstring) :
  get (lit "query") (searchParams request) = Some q -> q <> [] ->
  encodeURIComponent q = inl (ErrorObject message) ->
  handler request
  = ({| status := 500;
        headers := [];
        body :=
          JObject
            [(lit "error", JString (lit "Failed to fetch from vector-only endpoint"));
             (lit "details", JString message)] |},
     []).
Proof.
  intros Hget Hne Henc.
  rewrite (GET_with_query request q Hget Hne), Henc. reflexivity.
Qed.

End ProxyPaths.

Section ProxySamples.
Import Route Proxy.

Lemma GET_200_is_relay_witness :
  status (fst (GET None plainEncode (parseTo (JString (lit "ok")))
                   (answering 200 (lit "text")) (asking (lit "flu")))) = 200
  /\ exists q encoded response txt data,
       get (lit "query") (searchParams (asking (lit "flu"))) = Some q
       /\ q <> []
       /\ plainEncode q = inr encoded
       /\ answering 200 (lit "text") (callFor None encoded) = Fulfilled response
       /\ ok response = true
       /\ text response = inr txt
       /\ parseTo (JString (lit "ok")) txt = inr data
       /\ GET None plainEncode (parseTo (JString (lit "ok")))
              (answering 200 (lit "text")) (asking (lit "flu"))
          = ({| status := 200;
                headers := [(lit "Cache-Control", lit "no-store, max-age=0")];
                body := data |},
             [callFor None encoded]).
Proof.
  split; [reflexivity|].
  exact (GET_200_is_relay None plainEncode (parseTo (JString (lit "ok")))
           (answering 200 (lit "text")) (asking (lit "flu")) eq_refl).
Defined.

Lemma GET_backend_error_status_witness :
  get (lit "query") (searchParams (asking (lit "flu"))) = Some (lit "flu")
  /\ lit "flu" <> []
  /\ plainEncode (lit "flu") = inr (lit "flu")
  /\ answering 503 (lit "down") (callFor None (lit "flu"))
     = Fulfilled {| backendStatus := 503; text := inr (lit "down") |}
  /\ ok {| backendStatus := 503; text := inr (lit "down") |} = false
  /\ status (fst (GET None plainEncode (parseTo JNull)
                      (answering 503 (lit "down")) (asking (lit "flu")))) = 500.
Proof.
  assert (Hne : lit "flu" <> []) by (simpl; discriminate).
  split; [reflexivity|]. split; [exact Hne|]. split; [reflexivity|].
  split; [reflexivity|]. split; [reflexivity|].
  rewrite (GET_backend_error_status None plainEncode (parseTo JNull)
             (answering 503 (lit "down")) (asking (lit "flu"))
             (lit "flu") (lit "flu")
             {| backendStatus := 503; text := inr (lit "down") |}
             eq_refl Hne eq_refl eq_refl eq_refl).
  reflexivity.
Defined.

Lemma GET_parsed_but_rejected_witness :
  get (lit "query") (searchParams (asking (lit "flu"))) = Some (lit "flu")
  /\ lit "flu" <> []
  /\ plainEncode (lit "flu") = inr (lit "flu")
  /\ answering 200 (lit "null") (callFor None (lit "flu"))
     = Fulfilled {| backendStatus := 200; text := inr (lit "null") |}
  /\ ok {| backendStatus := 200; text := inr (lit "null") |} = true
  /\ parseTo JNull (lit "null") = inr JNull
  /\ status (fst (GET None plainEncode (parseTo JNull)
                      (answering 200 (lit "null")) (asking (lit "flu")))) = 500.
Proof.
  assert (Hne : lit "flu" <> []) by (simpl; discriminate).
  split; [reflexivity|]. split; [exact Hne|]. split; [reflexivity|].
  split; [reflexivity|]. split; [reflexivity|]. split; [reflexivity|].
  rewrite (GET_parsed_but_rejected None plainEncode (parseTo JNull)
             (answering 200 (lit "null")) (asking (lit "flu"))
             (lit "flu") (lit "flu") (lit "null")
             {| backendStatus := 200; text := inr (lit "null") |} JNull
             eq_refl Hne eq_refl eq_refl eq_refl eq_refl eq_refl
             (or_introl eq_refl)).
  reflexivity.
Defined.

Lemma GET_call_shape_witness :
  In (callFor None (lit "flu"))
     (snd (GET None plainEncode (parseTo JNull) (answering 200 (lit "null"))
               (asking (lit "flu"))))
  /\ exists q encoded,
       get (lit "query") (searchParams (asking (lit "flu"))) = Some q
       /\ plainEncode q = inr encoded
       /\ method (callFor None (lit "flu")) = lit "GET"
       /\ requestHeaders (callFor None (lit "flu"))
          = [(lit "Content-Type", lit "application/json");
             (lit "Cache-Control", lit "no-cache")]
       /\ url (callFor None (lit "flu"))
          = lit "http://localhost:8000" ++ lit "/query-with-vector-only?query="
            ++ encoded.
Proof.
  assert (Hin : In (callFor None (lit "flu"))
                  (snd (GET None plainEncode (parseTo JNull)
                            (answering 200 (lit "null")) (asking (lit "flu")))))
    by (left; reflexivity).
  split; [exact Hin|].
  exact (GET_call_shape None plainEncode (parseTo JNull)
           (answering 200 (lit "null")) (asking (lit "flu"))
           (callFor None (lit "flu")) Hin).
Defined.

Lemma GET_unencodable_query_witness :
  get (lit "query") (searchParams (asking (lit "flu"))) = Some (lit "flu")
  /\ lit "flu" <> []
  /\ malformedEncode (lit "flu") = inl (ErrorObject (lit "URI malformed"))
  /\ snd (GET None malformedEncode (parseTo JNull)
              (answering 200 (lit "null")) (asking (lit "flu"))) = [].
Proof.
  assert (Hne : lit "flu" <> []) by (simpl; discriminate).
  split; [reflexivity|]. split; [exact Hne|]. split; [reflexivity|].
  rewrite (GET_unencodable_query None malformedEncode (parseTo JNull)
             (answering 200 (lit "null")) (asking (lit "flu"))
             (lit "flu") (lit "URI malformed") eq_refl Hne eq_refl).
  reflexivity.
Defined.

End ProxySamples.

(** ** Toasts *)

Section ToastList.
Import Toasts.

Lemma dismiss_In (i : jsstring) (toasts : list Toast) (t : Toast) :
  In t (dismiss i toasts) <-> In t toasts /\ id t <> i.
Proof.
  unfold dismiss. rewrite filter_In, negb_true_iff.
  split; intros [Hin H]; split; auto.
  - intros Heq. apply eqb_eq in Heq. congruence.
  - destruct (eqb (id t) i) eqn:He; [|reflexivity].
    apply eqb_eq in He. contradiction.
Qed.

Lemma dismiss_absent (i : jsstring) (toasts : list Toast) :
  (forall t, In t toasts -> id t <> i) -> dismiss i toasts = toasts.
Proof.
  intros Hfresh. unfold dismiss. apply forallb_filter_id.
  apply forallb_forall. intros t Hin. apply negb_true_iff.
  destruct (eqb (id t) i) eqn:He; [|reflexivity].
  apply eqb_eq in He. exfalso. exact (Hfresh t Hin He).
Qed.

(** X19.  Adding a toast under an id no present toast has, and dismissing
    that id, gives the earlier list back. *)
Theorem add_then_dismiss (fresh message : jsstring) (type : option ToastType)
    (toasts : list Toast) :
  (forall t, In t toasts -> id t <> fresh) ->
  dismiss fresh (add fresh message type toasts) = toasts.
Proof.
  intros Hfresh. unfold add, dismiss. rewrite filter_app. cbn [filter id].
  rewrite eqb_refl. cbn [negb]. rewrite app_nil_r.
  apply dismiss_absent. exact Hfresh.
Qed.

Lemma add_then_dismiss_witness :
  (forall t, In t (add (lit "k3x9f2a") (lit "saved") None []) ->
             id t <> lit "q7w1e5r")
  /\ dismiss (lit "q7w1e5r")
       (add (lit "q7w1e5r") (lit "failed") (Some error)
            (add (lit "k3x9f2a") (lit "saved") None []))
     = add (lit "k3x9f2a") (lit "saved") None [].
Proof.
  assert (Hfresh : forall t, In t (add (lit "k3x9f2a") (lit "saved") None []) ->
                             id t <> lit "q7w1e5r").
  { intros t [<- | []]. simpl. discriminate. }
  split; [exact Hfresh|].
  exact (add_then_dismiss (lit "q7w1e5r") (lit "failed") (Some error)
           (add (lit "k3x9f2a") (lit "saved") None []) Hfresh).
Defined.

Lemma filter_shorter {A} (f : A -> bool) (l : list A) (a : A) :
  In a l -> f a = false -> (List.length (filter f l) < List.length l)%nat.
Proof.
  induction l as [|x l IH]; simpl; [tauto|].
  intros [-> | Hin] Hf.
  - rewrite Hf. pose proof (filter_length_le f l). lia.
  - specialize (IH Hin Hf). destruct (f x); simpl; lia.
Qed.

(** X20.  Closing the card of a shown toast removes every toast that has
    its id (ids are drawn at random, so several may), and no other: the
    list gets shorter, the closed toast is gone, and a toast is left
    exactly if it was there under another id. *)
Theorem onClose_removes_that_id (toast : Toast) (toasts : list Toast) :
  In toast toasts ->
  ~ In toast (onClose toast toasts)
  /\ (List.length (onClose toast toasts) < List.length toasts)%nat
  /\ forall other,
       In other (onClose toast toasts)
       <-> In other toasts /\ id other <> id toast.
Proof.
  intros Hin. unfold onClose. split; [|split].
  - intros H. apply dismiss_In in H. destruct H as [_ H]. congruence.
  - unfold dismiss. apply (filter_shorter _ _ toast Hin).
    rewrite eqb_refl. reflexivity.
  - intros other. apply dismiss_In.
Qed.

Lemma onClose_removes_that_id_witness :
  In {| id := lit "k3x9f2a"; type := default; message := lit "saved" |}
     (add (lit "k3x9f2a") (lit "again") (Some info)
          (add (lit "k3x9f2a") (lit "saved") None []))
  /\ onClose {| id := lit "k3x9f2a"; type := default; message := lit "saved" |}
       (add (lit "k3x9f2a") (lit "again") (Some info)
            (add (lit "k3x9f2a") (lit "saved") None []))
     = []
  /\ ~ In {| id := lit "k3x9f2a"; type := default; message := lit "saved" |}
          (onClose
             {| id := lit "k3x9f2a"; type := default; message := lit "saved" |}
             (add (lit "k3x9f2a") (lit "again") (Some info)
                  (add (lit "k3x9f2a") (lit "saved") None []))).
Proof.
  assert (Hin : In {| id := lit "k3x9f2a"; type := default;
                      message := lit "saved" |}
                  (add (lit "k3x9f2a") (lit "again") (Some info)
                       (add (lit "k3x9f2a") (lit "saved") None [])))
    by (left; reflexivity).
  split; [exact Hin|]. split; [reflexivity|].
  exact (proj1 (onClose_removes_that_id _ _ Hin)).
Defined.

End ToastList.
